(** * serverless-aws-cdk: the provider adapter [AwsCdkProvider]

    A shallow embedding of [src/provider/awsCdkProvider.ts] and the
    properties of its configuration getters, string helpers and
    toolkit-facing calls. *)

From Stdlib Require Import ZArith List Bool Lia.
From Stdlib Require Import Strings.String Strings.Ascii Numbers.DecimalString.
Import ListNotations.

Open Scope list_scope.
Open Scope string_scope.

Set Warnings "-register-all".

(* ================================================================== *)
(** ** The JavaScript fragment the adapter relies on *)
(* ================================================================== *)

Module JS.

(** Configuration data is typed [any] in the source.  A value is one of
    the primitives or a plain object (a list of own properties, looked up
    by key, first binding wins).  Numbers are the integers, on which
    [Number::toString] is the decimal notation (below 10^21 in
    magnitude), together with [NaN]. *)
Inductive value : Type :=
| VUndefined
| VNull
| VBool (b : bool)
| VNum (n : Z)
| VNaN
| VStr (s : string)
| VObj (fields : list (string * value)).

(** Exceptions and promise rejections. *)
Inductive exn : Type :=
| TypeError                     (* property read on undefined or null *)
| Error (message : string)      (* [new Error(message)] *)
| Rejected (reason : string).   (* failure raised by the host or toolkit *)

Inductive result (A : Type) : Type :=
| Ok (a : A)
| Throw (e : exn).
Arguments Ok {A} a.
Arguments Throw {A} e.

Definition bindR {A B} (r : result A) (k : A -> result B) : result B :=
  match r with
  | Ok a => k a
  | Throw e => Throw e
  end.

(** ToBoolean: [undefined], [null], [false], [0], [NaN] and the empty
    string are falsy, everything else (every object included) is truthy. *)
Definition truthy (v : value) : bool :=
  match v with
  | VUndefined | VNull | VNaN => false
  | VBool b => b
  | VNum n => negb (n =? 0)%Z
  | VStr s => negb (s =? "")
  | VObj _ => true
  end.

(** [a || b] on already evaluated operands. *)
Definition or_else (a b : value) : value := if truthy a then a else b.

Definition nullish (v : value) : bool :=
  match v with
  | VUndefined | VNull => true
  | _ => false
  end.

Fixpoint lookup (k : string) (fields : list (string * value)) : value :=
  match fields with
  | [] => VUndefined
  | (k', v) :: rest => if k' =? k then v else lookup k rest
  end.

(** [o[k]] for a non-nullish [o].  The keys the adapter reads are
    configuration names, none of which is a property of a primitive's
    prototype or of [Object.prototype]; on a primitive the read yields
    [undefined]. *)
Definition member (o : value) (k : string) : value :=
  match o with
  | VObj fields => lookup k fields
  | _ => VUndefined
  end.

(** [o.k], which throws a TypeError when [o] is undefined or null. *)
Definition prop (o : value) (k : string) : result value :=
  if nullish o then Throw TypeError else Ok (member o k).

(** ToString, as applied by a template literal. *)
Definition toString (v : value) : string :=
  match v with
  | VUndefined => "undefined"
  | VNull => "null"
  | VBool true => "true"
  | VBool false => "false"
  | VNum n => NilZero.string_of_int (Z.to_int n)
  | VNaN => "NaN"
  | VStr s => s
  | VObj _ => "[object Object]"
  end.

Definition of_option (o : option string) : value :=
  match o with
  | Some s => VStr s
  | None => VUndefined
  end.

(** *** Character classes and [String.prototype.replace]

    A string is a sequence of one-byte characters.  Both patterns of the
    adapter are negated ASCII classes, so every character above 127 falls
    outside the class, as every non-ASCII code unit does in the source. *)

Definition between (lo hi c : ascii) : bool :=
  let n := nat_of_ascii c in
  (nat_of_ascii lo <=? n)%nat && (n <=? nat_of_ascii hi)%nat.

(** [[a-zA-Z0-9]] *)
Definition alnum (c : ascii) : bool :=
  between "a" "z" c || between "A" "Z" c || between "0" "9" c.

(** [[a-zA-Z0-9-]] *)
Definition alnum_or_hyphen (c : ascii) : bool :=
  alnum c || (c =? "-")%char.

Section Replace.
(** [keep] is the bracketed class; the patterns below are [[^keep]+]. *)
Variable keep : ascii -> bool.
Variable replacement : string.

(** The rest of the subject after a greedy match of [[^keep]+] that has
    already consumed one character. *)
Fixpoint skip_run (s : string) : string :=
  match s with
  | EmptyString => EmptyString
  | String c rest => if keep c then s else skip_run rest
  end.

(** [s.replace(/[^keep]+/, replacement)]: the leftmost match only. *)
Fixpoint replace_first (s : string) : string :=
  match s with
  | EmptyString => EmptyString
  | String c rest =>
      if keep c then String c (replace_first rest)
      else replacement ++ skip_run rest
  end.

(** [s.replace(/[^keep]+/g, replacement)]: every match, left to right.
    [in_match] tells that the previous character belongs to the match
    being consumed. *)
Fixpoint replace_all_from (in_match : bool) (s : string) : string :=
  match s with
  | EmptyString => EmptyString
  | String c rest =>
      if keep c then String c (replace_all_from false rest)
      else if in_match then replace_all_from true rest
      else replacement ++ replace_all_from true rest
  end.

Definition replace_all (s : string) : string := replace_all_from false s.
End Replace.

(** [s.split(sep)] for a one-character separator: never an empty array. *)
Fixpoint split (sep : ascii) (s : string) : list string :=
  match s with
  | EmptyString => [EmptyString]
  | String c rest =>
      if (c =? sep)%char then EmptyString :: split sep rest
      else match split sep rest with
           | seg :: segs => String c seg :: segs
           | [] => [String c EmptyString]
           end
  end.

(** [parts.join(sep)] *)
Fixpoint join (sep : string) (parts : list string) : string :=
  match parts with
  | [] => EmptyString
  | [p] => p
  | p :: rest => p ++ sep ++ join sep rest
  end.

Notation "x <-? e ;; k" := (bindR e (fun x => k))
  (at level 61, e at next level, right associativity).

(** [o.k1.k2...kn] *)
Fixpoint props (o : value) (keys : list string) : result value :=
  match keys with
  | [] => Ok o
  | k :: rest => v <-? prop o k ;; props v rest
  end.

End JS.

(* ================================================================== *)
(** ** The lodash helpers the adapter calls *)
(* ================================================================== *)

Module Lodash.
Import JS.

(** [key in Object(object)] on own properties. *)
Fixpoint has_key (k : string) (fields : list (string * value)) : bool :=
  match fields with
  | [] => false
  | (k', _) :: rest => (k' =? k) || has_key k rest
  end.

(** [castPath]: a path string that is itself a property of the object is
    one key; otherwise it is cut at the dots ([stringToPath] on keys
    without brackets or backslashes, which is what the adapter builds). *)
Definition castPath (path : string) (object : value) : list string :=
  match object with
  | VObj fields => if has_key path fields then [path] else split "." path
  | _ => split "." path
  end.

(** The loop of [baseGet]: walk while the object is neither undefined nor
    null; stopping before the end of the path yields [undefined]. *)
Fixpoint walk (object : value) (path : list string) : value :=
  match path with
  | [] => object
  | k :: rest => if nullish object then VUndefined
                 else walk (member object k) rest
  end.

Definition baseGet (object : value) (path : string) : value :=
  match castPath path object with
  | [] => VUndefined
  | keys => walk object keys
  end.

(** [_.get(object, path)] without a default value. *)
Definition get (object : value) (path : string) : value :=
  if nullish object then VUndefined else baseGet object path.

(** lodash's [toString]: undefined and null become the empty string. *)
Definition toString (v : value) : string :=
  if nullish v then "" else JS.toString v.

(** [_.split(string, separator)] with a one-character separator. *)
Definition split (v : value) (sep : ascii) : list string :=
  JS.split sep (toString v).

(** [_.nth(array, n)] for [n >= 0]: the element, or [undefined] past the
    end. *)
Definition nth (array : list string) (n : nat) : value :=
  of_option (nth_error array n).

End Lodash.

(* ================================================================== *)
(** ** The adapter *)
(* ================================================================== *)

Module AwsCdkProvider.
Import JS.

Definition providerName : string := "aws-cdk".
Definition outDirRelativePath : string := ".serverless-aws-cdk-assembly".

(** Objects handed out by the toolkit, known by their identity only. *)
Inductive SdkProvider : Type := SdkProviderRef (id : nat).
Inductive ISDK : Type := SdkRef (id : nat).
Inductive Mode : Type := ForReading | ForWriting.

Record AccountInfo : Type := {
  accountId : JS.value;
  partition : JS.value;
  arn : JS.value;
  userId : JS.value }.

(** [cxapi.Environment] *)
Record Environment : Type := {
  name : JS.value;
  account : JS.value;
  region : JS.value }.

(** The response of [sts.getCallerIdentity()]; every field is optional. *)
Record CallerIdentity : Type := {
  Arn : option string;
  Account : option string;
  UserId : option string }.

(** The fields of an adapter instance.  [serverless] is the host object as
    data; [getFunction] is its method [serverless.service.getFunction]. *)
Record Adapter : Type := {
  options : JS.value;
  serverless : JS.value;
  getFunction : string -> result JS.value;
  tsCompiled : bool;
  sdkProvider : option SdkProvider }.

(** [this] as the object [_.get] walks.  The private toolkit handle is not
    configuration data and lies on none of the paths. *)
Definition self (a : Adapter) : JS.value :=
  VObj [("options", options a);
        ("serverless", serverless a);
        ("tsCompiled", VBool (tsCompiled a))].

Record SourceValue : Type := { path : list string; value : JS.value }.

Definition getValues (source : JS.value) (paths : list (list string))
  : list SourceValue :=
  map (fun path => {| path := path;
                      value := Lodash.get source (join "." path) |}) paths.

Definition firstValue (values : list SourceValue) : SourceValue :=
  fold_left (fun result current => if truthy (value result) then result
                                   else current)
            values {| path := []; value := VUndefined |}.

Definition stagePaths : list (list string) :=
  [ ["options"; "stage"];
    ["serverless"; "config"; "stage"];
    ["serverless"; "service"; "provider"; "stage"] ].

Definition getStageSourceValue (a : Adapter) : SourceValue :=
  firstValue (getValues (self a) stagePaths).

Definition getStage (a : Adapter) : JS.value :=
  let defaultStage := VStr "dev" in
  or_else (value (getStageSourceValue a)) defaultStage.

Definition regionPaths : list (list string) :=
  [ ["options"; "region"];
    ["serverless"; "config"; "region"];
    ["serverless"; "service"; "provider"; "region"] ].

Definition getRegionSourceValue (a : Adapter) : SourceValue :=
  firstValue (getValues (self a) regionPaths).

Definition getRegion (a : Adapter) : JS.value :=
  let defaultRegion := VStr "us-east-1" in
  or_else (value (getRegionSourceValue a)) defaultRegion.

Definition profilePaths : list (list string) :=
  [ ["options"; "aws-profile"];
    ["options"; "profile"];
    ["serverless"; "config"; "profile"];
    ["serverless"; "service"; "provider"; "profile"] ].

(** [firstVal ? firstVal.value : null]: [firstVal] is an object, hence
    truthy, and the [null] branch is never taken. *)
Definition getProfileSourceValue (a : Adapter) : JS.value :=
  let firstVal := firstValue (getValues (self a) profilePaths) in
  value firstVal.

Definition getProfile (a : Adapter) : JS.value := getProfileSourceValue a.

Definition getStackName (a : Adapter) : result JS.value :=
  stackName <-? props (serverless a) ["service"; "provider"; "stackName"] ;;
  if truthy stackName then Ok stackName
  else
    service <-? props (serverless a) ["service"; "service"] ;;
    Ok (VStr (JS.toString service ++ "-" ++ JS.toString (getStage a))).

Definition getCfnRoleArn (a : Adapter) : result JS.value :=
  cfnRole <-? props (serverless a) ["service"; "provider"; "cfnRole"] ;;
  Ok (or_else cfnRole VUndefined).

Definition getDeploymentBucketName (a : Adapter) : result JS.value :=
  deploymentBucketConfig <-?
    props (serverless a) ["service"; "provider"; "deploymentBucket"] ;;
  if truthy deploymentBucketConfig then
    name <-? prop deploymentBucketConfig "name" ;;
    if truthy name then prop deploymentBucketConfig "name"
    else Ok VUndefined
  else Ok VUndefined.

Definition canonicalise (value : string) : string :=
  replace_first alnum_or_hyphen "-" value.

Definition makeAlphanumeric (value : string) : string :=
  replace_all alnum "" value.

Definition getFunctionZipPath (a : Adapter) (functionName : string)
  : result JS.value :=
  _ <-? props (serverless a) ["service"; "getFunction"] ;;
  func <-? getFunction a functionName ;;
  package <-? prop func "package" ;;
  artifact <-? (if truthy package then prop package "artifact"
                else Ok package) ;;
  if truthy artifact then props func ["package"; "artifact"]
  else
    serviceArtifact <-? props (serverless a) ["service"; "artifact"] ;;
    if truthy serviceArtifact then props (serverless a) ["service"; "artifact"]
    else Throw (Error "Could not find zip package").

Definition getStackTags (a : Adapter) : result JS.value :=
  stackTags <-? props (serverless a) ["service"; "provider"; "stackTags"] ;;
  Ok (or_else stackTags (VObj [])).


(** *** The constructor's packaging exclusion

    [serverless.service.package.exclude] as the constructor finds it: an
    array of entries, or anything else. *)
Inductive Exclude : Type :=
| NotAnArray (v : JS.value)
| AnArray (items : list JS.value).

Definition excludedFiles : list JS.value :=
  [VStr (outDirRelativePath ++ "/**")].

(** What the constructor assigns to [serverless.service.package.exclude]:
    [exclude instanceof Array ? exclude.concat(excludedFiles)
                              : excludedFiles]. *)
Definition constructor_exclude (exclude : Exclude) : list JS.value :=
  match exclude with
  | AnArray items => (items ++ excludedFiles)%list
  | NotAnArray _ => excludedFiles
  end.

(** *** Paths

    [path.join] and [path.isAbsolute] of the platform at hand, on strings;
    given anything but a string, both raise a TypeError. *)
Section Paths.
Variable path_join : string -> string -> string.
Variable path_isAbsolute : string -> bool.

Definition getCdkOutputPath (a : Adapter) : result JS.value :=
  servicePath <-? props (serverless a) ["config"; "servicePath"] ;;
  match servicePath with
  | VStr dir => Ok (VStr (path_join dir outDirRelativePath))
  | _ => Throw TypeError
  end.

Definition getCdkTsconfigPath (a : Adapter) : result JS.value :=
  tsConfigPath <-?
    props (serverless a) ["service"; "provider"; "tsConfigPath"] ;;
  let tsConfig := or_else tsConfigPath (VStr "tsconfig.json") in
  match tsConfig with
  | VStr file =>
      if path_isAbsolute file then Ok tsConfig
      else
        servicePath <-? props (serverless a) ["config"; "servicePath"] ;;
        match servicePath with
        | VStr dir => Ok (VStr (path_join dir file))
        | _ => Throw TypeError
        end
  | _ => Throw TypeError
  end.

End Paths.

(** *** Calls into the credentials API and the toolkit

    The asynchronous methods are run one after the other, each awaited
    before the next starts.  A run threads the adapter (whose toolkit
    handle is assigned on the way) and the list of outbound calls made so
    far; what a call answers may depend on every call made before it. *)

Inductive Call : Type :=
| GetCallerIdentity (clientRegion : JS.value)
| WithAwsCliCompatibleDefaults (profile : JS.value)
| WithAssumedRole (on : SdkProvider) (roleArn accountId region : JS.value)
| ForEnvironment (on : SdkProvider) (environment : Environment) (mode : Mode).

Record Toolkit : Type := {
  sts_getCallerIdentity :
    list Call -> JS.value -> result CallerIdentity;
  SdkProvider_withAwsCliCompatibleDefaults :
    list Call -> JS.value -> result SdkProvider;
  SdkProvider_withAssumedRole :
    list Call -> SdkProvider -> JS.value -> JS.value -> JS.value -> result ISDK;
  SdkProvider_forEnvironment :
    list Call -> SdkProvider -> Environment -> Mode -> result ISDK }.

Record State : Type := { this : Adapter; calls : list Call }.

Definition Async (A : Type) : Type := State -> result A * State.

Definition ret {A} (a : A) : Async A := fun s => (Ok a, s).

Definition bind {A B} (m : Async A) (k : A -> Async B) : Async B :=
  fun s => match m s with
           | (Ok a, s') => k a s'
           | (Throw e, s') => (Throw e, s')
           end.

Notation "x <- e ;; k" := (bind e (fun x => k))
  (at level 61, e at next level, right associativity).

(** A synchronous getter evaluated on the current [this]. *)
Definition sync {A} (f : Adapter -> result A) : Async A :=
  fun s => (f (this s), s).

Definition pure {A} (f : Adapter -> A) : Async A :=
  fun s => (Ok (f (this s)), s).

(** An outbound call: answered from the calls made so far, then recorded. *)
Definition invoke {A} (c : Call) (answer : list Call -> result A) : Async A :=
  fun s => (answer (calls s),
            {| this := this s; calls := (calls s ++ [c])%list |}).

Definition set_sdkProvider (p : SdkProvider) : Async unit :=
  fun s => (Ok tt,
            {| this := {| options := options (this s);
                          serverless := serverless (this s);
                          getFunction := getFunction (this s);
                          tsCompiled := tsCompiled (this s);
                          sdkProvider := Some p |};
               calls := calls s |}).

Section Run.
Variable toolkit : Toolkit.

Definition getAccountInfo : Async AccountInfo :=
  clientRegion <- pure getRegion ;;
  result <- invoke (GetCallerIdentity clientRegion)
                   (fun h => sts_getCallerIdentity toolkit h clientRegion) ;;
  let arn := of_option (Arn result) in
  let accountId := of_option (Account result) in
  let partition := Lodash.nth (Lodash.split arn ":") 1 in
  let userId := of_option (UserId result) in
  ret {| accountId := accountId;
         partition := partition;
         arn := arn;
         userId := userId |}.

Definition getAccountId : Async JS.value :=
  info <- getAccountInfo ;;
  ret (accountId info).

Definition getEnvironment : Async Environment :=
  accountId <- getAccountId ;;
  region <- pure getRegion ;;
  stage <- pure getStage ;;
  ret {| name := stage; account := accountId; region := region |}.

Definition getSdkProvider : Async SdkProvider :=
  current <- pure sdkProvider ;;
  match current with
  | Some provider => ret provider
  | None =>
      profile <- pure getProfile ;;
      provider <- invoke (WithAwsCliCompatibleDefaults profile)
        (fun h => SdkProvider_withAwsCliCompatibleDefaults toolkit h profile) ;;
      _ <- set_sdkProvider provider ;;
      ret provider
  end.

Definition getSdk : Async ISDK :=
  assumeRoleArn <- sync getCfnRoleArn ;;
  sdkProvider <- getSdkProvider ;;
  if truthy assumeRoleArn then
    accountId <- getAccountId ;;
    region <- pure getRegion ;;
    invoke (WithAssumedRole sdkProvider assumeRoleArn accountId region)
      (fun h => SdkProvider_withAssumedRole toolkit h sdkProvider
                  assumeRoleArn accountId region)
  else
    environment <- getEnvironment ;;
    invoke (ForEnvironment sdkProvider environment ForWriting)
      (fun h => SdkProvider_forEnvironment toolkit h sdkProvider
                  environment ForWriting).

(** [getSdkProvider] cut at its [await].  Calling it runs the test of
    [this.sdkProvider] and, without a handle, the request to the toolkit;
    the rest runs when the awaited request has settled. *)
Inductive Suspended : Type :=
| Returned (provider : SdkProvider)       (* the handle was there *)
| Awaiting (settled : result SdkProvider). (* the request and its outcome *)

Definition getSdkProvider_call (s : State) : Suspended * State :=
  match sdkProvider (this s) with
  | Some provider => (Returned provider, s)
  | None =>
      let profile := getProfile (this s) in
      (Awaiting (SdkProvider_withAwsCliCompatibleDefaults toolkit (calls s)
                   profile),
       {| this := this s;
          calls := (calls s ++ [WithAwsCliCompatibleDefaults profile])%list |})
  end.

Definition getSdkProvider_resume (w : Suspended) : Async SdkProvider :=
  match w with
  | Returned provider => ret provider
  | Awaiting (Ok provider) => _ <- set_sdkProvider provider ;; ret provider
  | Awaiting (Throw e) => fun s => (Throw e, s)
  end.

(** Two calls on one adapter, the second made before the request of the
    first has settled; the requests then settle in the order made. *)
Definition getSdkProvider_overlapped (s : State)
  : (result SdkProvider * result SdkProvider) * State :=
  let (w1, s1) := getSdkProvider_call s in
  let (w2, s2) := getSdkProvider_call s1 in
  let (r1, s3) := getSdkProvider_resume w1 s2 in
  let (r2, s4) := getSdkProvider_resume w2 s3 in
  ((r1, r2), s4).

End Run.

End AwsCdkProvider.

(* ================================================================== *)
(** ** Properties *)
(* ================================================================== *)

Import JS AwsCdkProvider.

(** *** Vocabulary of the statements *)

(** Every character of [s] satisfies [f]. *)
Fixpoint every (f : ascii -> bool) (s : string) : bool :=
  match s with
  | EmptyString => true
  | String c rest => f c && every f rest
  end.

(** [s] is empty or begins with a character satisfying [f]. *)
Definition opens_with (f : ascii -> bool) (s : string) : bool :=
  match s with
  | EmptyString => true
  | String c _ => f c
  end.

(** The characters of [s] satisfying [f], in order. *)
Fixpoint only (f : ascii -> bool) (s : string) : string :=
  match s with
  | EmptyString => EmptyString
  | String c rest => if f c then String c (only f rest) else only f rest
  end.

Definition outside (f : ascii -> bool) (c : ascii) : bool := negb (f c).

(** [o?.k]: what a step of [_.get] reads. *)
Definition opt (o : JS.value) (k : string) : JS.value :=
  if nullish o then VUndefined else member o k.

(** The entries of the three chains, in the order the source lists them. *)
Definition stageChain (a : Adapter) : list JS.value :=
  [ opt (options a) "stage";
    opt (opt (serverless a) "config") "stage";
    opt (opt (opt (serverless a) "service") "provider") "stage" ].

Definition regionChain (a : Adapter) : list JS.value :=
  [ opt (options a) "region";
    opt (opt (serverless a) "config") "region";
    opt (opt (opt (serverless a) "service") "provider") "region" ].

Definition profileChain (a : Adapter) : list JS.value :=
  [ opt (options a) "aws-profile";
    opt (options a) "profile";
    opt (opt (serverless a) "config") "profile";
    opt (opt (opt (serverless a) "service") "provider") "profile" ].

(** An entry is empty when it is falsy: missing, [null], [false], [0],
    [NaN] or the empty string. *)
Definition empty (v : JS.value) : bool := negb (truthy v).

Definition first_non_empty (chain : list JS.value) : option JS.value :=
  find truthy chain.

(** [serverless.service] and [serverless.service.provider] as the host
    framework sets them up. *)
Definition service_of (a : Adapter) : JS.value :=
  member (serverless a) "service".

Definition provider_of (a : Adapter) : JS.value :=
  member (service_of a) "provider".

(** The host object carries a service. *)
Definition has_service (a : Adapter) : bool :=
  negb (nullish (serverless a)) && negb (nullish (service_of a)).

(** The host object carries a service with a provider section. *)
Definition has_provider (a : Adapter) : bool :=
  has_service a && negb (nullish (provider_of a)).

(** A host with service ["svc"], the given CLI options and provider
    section, and no function. *)
Definition sample (opts provider : list (string * JS.value)) : Adapter :=
  {| options := VObj opts;
     serverless :=
       VObj [("config", VObj []);
             ("service", VObj [("service", VStr "svc");
                               ("provider", VObj provider)])];
     getFunction := fun _ => Throw (Rejected "no such function");
     tsCompiled := false;
     sdkProvider := None |}.

(** [func.package.artifact] read the way the guard of the source reads it:
    the artifact of a missing package section counts as not set. *)
Definition function_artifact (func : JS.value) : JS.value :=
  if truthy (member func "package")
  then member (member func "package") "artifact"
  else VUndefined.

(** A host with one function ["hello"] whose definition is [func], and the
    given service-wide properties. *)
Definition packaged (func : JS.value) (service : list (string * JS.value))
  : Adapter :=
  {| options := VObj [];
     serverless := VObj [("service", VObj service)];
     getFunction := fun f => if f =? "hello" then Ok func
                             else Throw (Rejected "no such function");
     tsCompiled := false;
     sdkProvider := None |}.

(** The state after one more outbound call. *)
Definition logged (s : State) (c : Call) : State :=
  {| this := this s; calls := (calls s ++ [c])%list |}.

(** A credentials API and toolkit that always answer; the handle and the
    session they hand out are numbered by the calls made before, so that
    two constructions give two different handles. *)
Definition answering : Toolkit :=
  {| sts_getCallerIdentity := fun _ _ =>
       Ok {| Arn := Some "arn:aws:iam::123456789012:user/dev";
             Account := Some "123456789012";
             UserId := Some "AIDACKCEVSQ6C2EXAMPLE" |};
     SdkProvider_withAwsCliCompatibleDefaults := fun h _ =>
       Ok (SdkProviderRef (List.length h));
     SdkProvider_withAssumedRole := fun h _ _ _ _ => Ok (SdkRef (List.length h));
     SdkProvider_forEnvironment := fun h _ _ _ => Ok (SdkRef (List.length h)) |}.

Definition fresh (a : Adapter) : State := {| this := a; calls := [] |}.

(** [n] consecutive calls of [getSdkProvider], each awaited before the
    next is made, whether it succeeds or fails; the outcomes in order. *)
Fixpoint getSdkProvider_each (toolkit : Toolkit) (n : nat) (s : State)
  : list (result SdkProvider) * State :=
  match n with
  | O => ([], s)
  | S n' =>
      let (r, s') := getSdkProvider toolkit s in
      let (rs, s'') := getSdkProvider_each toolkit n' s' in
      (r :: rs, s'')
  end.

(** The number of failed calls among some outcomes, and whether one of
    them succeeded. *)
Fixpoint failures (rs : list (result SdkProvider)) : nat :=
  match rs with
  | [] => 0
  | Throw _ :: rest => S (failures rest)
  | Ok _ :: rest => failures rest
  end.

Fixpoint succeeded (rs : list (result SdkProvider)) : bool :=
  match rs with
  | [] => false
  | Ok _ :: _ => true
  | Throw _ :: rest => succeeded rest
  end.

(** The adapter [a] once the handle [p] has been assigned. *)
Definition with_handle (a : Adapter) (p : SdkProvider) : Adapter :=
  {| options := options a;
     serverless := serverless a;
     getFunction := getFunction a;
     tsCompiled := tsCompiled a;
     sdkProvider := Some p |}.

(** The keys of the configuration paths the adapter reads.  None of them
    names a property of a primitive or of [Object.prototype]. *)
Definition adapter_key (k : string) : bool :=
  existsb (String.eqb k)
          ["options"; "serverless"; "config"; "service"; "provider";
           "stage"; "region"; "profile"; "aws-profile"].

(** The number of toolkit handles requested in a list of calls. *)
Fixpoint constructions (cs : list Call) : nat :=
  match cs with
  | [] => 0
  | WithAwsCliCompatibleDefaults _ :: rest => S (constructions rest)
  | _ :: rest => constructions rest
  end.

Definition is_colon (c : ascii) : bool := (c =? ":")%char.

(** The [partition] field of what [getAccountInfo] resolves to. *)
Definition partition_of (r : result AccountInfo * State) : option JS.value :=
  match fst r with
  | Ok info => Some (partition info)
  | Throw _ => None
  end.

(** The number of maximal runs of characters outside the class [keep];
    [in_run] tells that the previous character belongs to a run. *)
Fixpoint runs (keep : ascii -> bool) (in_run : bool) (s : string) : nat :=
  match s with
  | EmptyString => 0
  | String c rest =>
      if keep c then runs keep false rest
      else (if in_run then 0 else 1) + runs keep true rest
  end.

Definition offending_runs (s : string) : nat := runs alnum_or_hyphen false s.

(** A character that may occur in a key of a dotted path. *)
Definition key_char (c : ascii) : bool :=
  negb ((c =? ".")%char || (c =? "[")%char || (c =? "]")%char
        || (c =? "\")%char).

Definition is_sep (sep c : ascii) : bool := (c =? sep)%char.

(** No own property of [source] is named by the whole dotted path. *)
Definition no_property (source : JS.value) (dotted : string) : bool :=
  match source with
  | VObj fields => negb (Lodash.has_key dotted fields)
  | _ => true
  end.


(** The number of identity calls in a list of calls. *)
Fixpoint identity_calls (cs : list Call) : nat :=
  match cs with
  | [] => 0
  | GetCallerIdentity _ :: rest => S (identity_calls rest)
  | _ :: rest => identity_calls rest
  end.

(** The number of session requests (role assumption or environment
    session) in a list of calls. *)
Fixpoint session_calls (cs : list Call) : nat :=
  match cs with
  | [] => 0
  | WithAssumedRole _ _ _ _ :: rest => S (session_calls rest)
  | ForEnvironment _ _ _ :: rest => S (session_calls rest)
  | _ :: rest => session_calls rest
  end.

(** Two adapters hold the same configuration and host. *)
Definition same_config (a b : Adapter) : Prop :=
  options b = options a
  /\ serverless b = serverless a
  /\ getFunction b = getFunction a
  /\ tsCompiled b = tsCompiled a.

(** What a run may do to the adapter and the list of calls as far as the
    toolkit handle goes: the configuration stays, an assigned handle stays
    and then no further handle is requested, and at most one is requested
    otherwise. *)
Definition handle_kept (s s' : State) : Prop :=
  same_config (this s) (this s')
  /\ (forall p, sdkProvider (this s) = Some p ->
                sdkProvider (this s') = Some p
                /\ constructions (calls s') = constructions (calls s))
  /\ constructions (calls s') <= S (constructions (calls s))
  /\ (constructions (calls s') = S (constructions (calls s)) ->
      sdkProvider (this s) = None).

(** A toolkit whose identity call is rejected. *)
Definition expired : Toolkit :=
  {| sts_getCallerIdentity := fun _ _ => Throw (Rejected "ExpiredToken");
     SdkProvider_withAwsCliCompatibleDefaults :=
       SdkProvider_withAwsCliCompatibleDefaults answering;
     SdkProvider_withAssumedRole := SdkProvider_withAssumedRole answering;
     SdkProvider_forEnvironment := SdkProvider_forEnvironment answering |}.

(** A toolkit that hands out no handle before some call has been made. *)
Definition flaky : Toolkit :=
  {| sts_getCallerIdentity := sts_getCallerIdentity answering;
     SdkProvider_withAwsCliCompatibleDefaults := fun h _ =>
       match h with
       | [] => Throw (Rejected "no credentials")
       | _ => Ok (SdkProviderRef (List.length h))
       end;
     SdkProvider_withAssumedRole := SdkProvider_withAssumedRole answering;
     SdkProvider_forEnvironment := SdkProvider_forEnvironment answering |}.

(** A host without a service. *)
Definition bare : Adapter :=
  {| options := VObj [("stage", VStr "qa")];
     serverless := VObj [("config", VObj [("servicePath", VStr "/srv/app")])];
     getFunction := fun _ => Throw (Rejected "no such function");
     tsCompiled := false;
     sdkProvider := None |}.

(** The exclusion list after [n] adapters have been constructed on the
    same host, one after the other. *)
Fixpoint constructed (n : nat) (exclude : Exclude) : Exclude :=
  match n with
  | O => exclude
  | S n' => AnArray (constructor_exclude (constructed n' exclude))
  end.

(** POSIX [path.join] of a directory and a relative file without dot
    segments, and POSIX [path.isAbsolute]. *)
Definition posix_join (dir file : string) : string := dir ++ "/" ++ file.

Definition posix_isAbsolute (file : string) : bool :=
  match file with
  | String "/" _ => true
  | _ => false
  end.

(** A host given by an optional [config] object and a provider section. *)
Definition hosted (config : option (list (string * JS.value)))
           (provider : list (string * JS.value)) : Adapter :=
  {| options := VObj [];
     serverless :=
       VObj (match config with
             | Some fields => [("config", VObj fields)]
             | None => []
             end
             ++ [("service", VObj [("provider", VObj provider)])])%list;
     getFunction := fun _ => Throw (Rejected "no such function");
     tsCompiled := false;
     sdkProvider := None |}.

(** The call is a session request. *)
Definition is_session (c : Call) : bool :=
  match c with
  | WithAssumedRole _ _ _ _ | ForEnvironment _ _ _ => true
  | _ => false
  end.

(** *** String helpers *)

Section ReplaceFacts.
Variable keep : ascii -> bool.
Variable replacement : string.

Lemma skip_run_past (r t : string) :
  every (outside keep) r = true ->
  opens_with keep t = true ->
  skip_run keep (r ++ t) = t.
Proof.
  induction r as [|c r IH]; simpl; intros Hr Ht.
  - destruct t as [|d t]; simpl in *; [reflexivity | now rewrite Ht].
  - apply andb_prop in Hr as [Hc Hr]. unfold outside in Hc.
    apply negb_true_iff in Hc. rewrite Hc. now apply IH.
Qed.

Lemma replace_first_clean (s : string) :
  every keep s = true -> replace_first keep replacement s = s.
Proof.
  induction s as [|c s IH]; simpl; intros H; [reflexivity|].
  apply andb_prop in H as [Hc Hs]. rewrite Hc. now rewrite IH.
Qed.

Lemma replace_first_decomposed (p r t : string) :
  every keep p = true ->
  r <> EmptyString ->
  every (outside keep) r = true ->
  opens_with keep t = true ->
  replace_first keep replacement (p ++ r ++ t) = p ++ replacement ++ t.
Proof.
  intros Hp Hne Hr Ht. induction p as [|c p IH]; simpl in *.
  - destruct r as [|d r]; [congruence|]. simpl in *.
    apply andb_prop in Hr as [Hd Hr]. unfold outside in Hd.
    apply negb_true_iff in Hd. rewrite Hd.
    now rewrite skip_run_past.
  - apply andb_prop in Hp as [Hc Hp]. rewrite Hc. now rewrite IH.
Qed.

End ReplaceFacts.

Lemma replace_all_from_deletes (keep : ascii -> bool) (b : bool) (s : string) :
  replace_all_from keep "" b s = only keep s.
Proof.
  revert b. induction s as [|c s IH]; intros b; simpl; [reflexivity|].
  destruct (keep c).
  - now rewrite IH.
  - destruct b; simpl; apply IH.
Qed.

Lemma only_every (f : ascii -> bool) (s : string) : every f (only f s) = true.
Proof.
  induction s as [|c s IH]; simpl; [reflexivity|].
  destruct (f c) eqn:E; simpl; [now rewrite E|assumption].
Qed.

Lemma only_fixes (f : ascii -> bool) (s : string) :
  every f s = true -> only f s = s.
Proof.
  induction s as [|c s IH]; simpl; intros H; [reflexivity|].
  apply andb_prop in H as [Hc Hs]. rewrite Hc. now rewrite IH.
Qed.

(** C2. [canonicalise] rewrites the first maximal run of characters outside
    [[a-zA-Z0-9-]] to one hyphen and copies everything after that run,
    later runs included; a string without such a character is returned as
    it is; and [canonicalise("a!!b!!c")] is ["a-b!!c"]. *)
Theorem canonicalise_first_run_only :
  (forall p r t : string,
      every alnum_or_hyphen p = true ->
      r <> "" ->
      every (outside alnum_or_hyphen) r = true ->
      opens_with alnum_or_hyphen t = true ->
      canonicalise (p ++ r ++ t) = p ++ "-" ++ t)
  /\ (forall s : string, every alnum_or_hyphen s = true -> canonicalise s = s)
  /\ canonicalise "a!!b!!c" = "a-b!!c".
Proof.
  split; [|split].
  - intros p r t Hp Hne Hr Ht. unfold canonicalise.
    now apply replace_first_decomposed.
  - intros s Hs. unfold canonicalise. now apply replace_first_clean.
  - reflexivity.
Qed.

Lemma canonicalise_first_run_only_witness :
  canonicalise ("ab" ++ "_!" ++ "c d") = "ab" ++ "-" ++ "c d"
  /\ canonicalise "a-b" = "a-b".
Proof.
  destruct canonicalise_first_run_only as [H1 [H2 _]]. split.
  - apply (H1 "ab" "_!" "c d"); [reflexivity | discriminate
                                | reflexivity | reflexivity].
  - apply (H2 "a-b"). reflexivity.
Defined.

(** C9. [makeAlphanumeric] keeps exactly the characters of [[a-zA-Z0-9]],
    in order, wherever the others stand; [makeAlphanumeric("a-b_c!d")] is
    ["abcd"]. *)
Theorem makeAlphanumeric_removes_all :
  (forall s : string, makeAlphanumeric s = only alnum s)
  /\ makeAlphanumeric "a-b_c!d" = "abcd".
Proof.
  split; [|reflexivity].
  intros s. unfold makeAlphanumeric, replace_all.
  apply replace_all_from_deletes.
Qed.

(** C10. [makeAlphanumeric] is idempotent and its output holds characters
    of [[a-zA-Z0-9]] only. *)
Theorem makeAlphanumeric_idempotent :
  forall s : string,
    makeAlphanumeric (makeAlphanumeric s) = makeAlphanumeric s
    /\ every alnum (makeAlphanumeric s) = true.
Proof.
  intros s. unfold makeAlphanumeric, replace_all.
  rewrite !replace_all_from_deletes. split.
  - apply only_fixes, only_every.
  - apply only_every.
Qed.

(** *** Precedence chains *)

Lemma fold_first_truthy (vs : list SourceValue) (acc : SourceValue) :
  truthy (value acc) = true ->
  fold_left (fun result current => if truthy (value result) then result
                                   else current) vs acc = acc.
Proof.
  intros H. induction vs as [|v vs IH]; simpl; [reflexivity|].
  now rewrite H.
Qed.

Lemma last_cons_default {A} (x : A) (l : list A) (d d' : A) :
  last (x :: l) d = last (x :: l) d'.
Proof.
  revert x. induction l as [|y l IH]; intros x; [reflexivity|].
  change (last (y :: l) d = last (y :: l) d'). apply IH.
Qed.

Lemma firstValue_from (vs : list SourceValue) (acc : SourceValue) :
  truthy (value acc) = false ->
  value (fold_left (fun result current => if truthy (value result) then result
                                          else current) vs acc)
  = match find truthy (map value vs) with
    | Some v => v
    | None => last (map value vs) (value acc)
    end.
Proof.
  revert acc. induction vs as [|v vs IH]; intros acc H; simpl.
  - reflexivity.
  - rewrite H. destruct (truthy (value v)) eqn:E.
    + now rewrite fold_first_truthy.
    + rewrite (IH v E). destruct (find truthy (map value vs)); [reflexivity|].
      destruct (map value vs) as [|w l]; [reflexivity|].
      change (last (w :: l) (value v) = last (w :: l) (value acc)).
      apply last_cons_default.
Qed.

Lemma firstValue_value (vs : list SourceValue) :
  value (firstValue vs)
  = match first_non_empty (map value vs) with
    | Some v => v
    | None => last (map value vs) VUndefined
    end.
Proof. unfold firstValue. now apply firstValue_from. Qed.

Lemma opt_undefined (keys : list string) :
  fold_left opt keys VUndefined = VUndefined.
Proof. induction keys as [|k keys IH]; simpl; [reflexivity | exact IH]. Qed.

Lemma walk_opt (keys : list string) (o : JS.value) :
  Lodash.walk o keys = fold_left opt keys o.
Proof.
  revert o. induction keys as [|k keys IH]; intros o; simpl; [reflexivity|].
  unfold opt at 2. destruct (nullish o).
  - now rewrite opt_undefined.
  - apply IH.
Qed.

Ltac chain_entries :=
  match goal with
  | |- map value (getValues (self ?a) ?paths) = _ =>
      transitivity (map (Lodash.walk (self a)) paths);
      [ cbv; reflexivity
      | cbv [map stagePaths regionPaths profilePaths];
        rewrite !walk_opt; cbn [fold_left];
        change (opt (self a) "options") with (options a);
        change (opt (self a) "serverless") with (serverless a);
        reflexivity ]
  end.

Lemma stage_entries (a : Adapter) :
  map value (getValues (self a) stagePaths) = stageChain a.
Proof. chain_entries. Qed.

Lemma region_entries (a : Adapter) :
  map value (getValues (self a) regionPaths) = regionChain a.
Proof. chain_entries. Qed.

Lemma profile_entries (a : Adapter) :
  map value (getValues (self a) profilePaths) = profileChain a.
Proof. chain_entries. Qed.

Lemma none_non_empty_last (chain : list JS.value) (d : JS.value) :
  first_non_empty chain = None ->
  truthy d = false ->
  truthy (last chain d) = false.
Proof.
  unfold first_non_empty.
  induction chain as [|v chain IH]; simpl; intros Hf Hd; [assumption|].
  destruct (truthy v) eqn:E; [discriminate|].
  destruct chain as [|w chain]; [assumption|]. now apply IH.
Qed.

Lemma or_default (chain : list JS.value) (default : JS.value) :
  or_else match first_non_empty chain with
          | Some v => v
          | None => last chain VUndefined
          end default
  = match first_non_empty chain with
    | Some v => v
    | None => default
    end.
Proof.
  unfold or_else. destruct (first_non_empty chain) as [v|] eqn:E.
  - apply find_some in E as [_ Hv]. now rewrite Hv.
  - now rewrite (none_non_empty_last chain VUndefined E).
Qed.

Example getStage_skips_empty :
  getStage {| options := VObj [("stage", VStr "")];
              serverless :=
                VObj [("config", VObj [("stage", VStr "prod")]);
                      ("service",
                       VObj [("provider", VObj [("stage", VStr "beta")])])];
              getFunction := fun _ => Throw (Rejected "no such function");
              tsCompiled := false;
              sdkProvider := None |}
  = VStr "prod".
Proof. reflexivity. Qed.

Example getRegion_default : getRegion (sample [] []) = VStr "us-east-1".
Proof. reflexivity. Qed.

Example getProfile_order :
  getProfile (sample [("profile", VStr "cli"); ("aws-profile", VStr "sso")]
                     [("profile", VStr "service")])
  = VStr "sso".
Proof. reflexivity. Qed.

Example getProfile_not_configured : getProfile (sample [] []) = VUndefined.
Proof. reflexivity. Qed.

(** C1. Each of [getStage], [getRegion] and [getProfile] returns the first
    non-empty entry of its chain, taken in the chain's fixed order.  When
    every entry is empty, [getStage] returns ["dev"], [getRegion] returns
    ["us-east-1"], and [getProfile] returns an unset value: the (empty)
    last entry of its chain. *)
Theorem precedence_chains (a : Adapter) :
  getStage a = match first_non_empty (stageChain a) with
               | Some v => v
               | None => VStr "dev"
               end
  /\ getRegion a = match first_non_empty (regionChain a) with
                   | Some v => v
                   | None => VStr "us-east-1"
                   end
  /\ match first_non_empty (profileChain a) with
     | Some v => getProfile a = v
     | None => empty (getProfile a) = true
               /\ getProfile a
                  = opt (opt (opt (serverless a) "service") "provider")
                        "profile"
     end.
Proof.
  split; [|split].
  - unfold getStage, getStageSourceValue.
    rewrite firstValue_value, stage_entries. apply or_default.
  - unfold getRegion, getRegionSourceValue.
    rewrite firstValue_value, region_entries. apply or_default.
  - unfold getProfile, getProfileSourceValue. cbv zeta.
    rewrite firstValue_value, profile_entries.
    destruct (first_non_empty (profileChain a)) eqn:E; [reflexivity|].
    split; [|reflexivity].
    unfold empty. now rewrite (none_non_empty_last _ VUndefined E).
Qed.

(** *** Getters over the service configuration *)

Lemma service_read (a : Adapter) (k : string) :
  has_service a = true ->
  props (serverless a) ["service"; k] = Ok (member (service_of a) k).
Proof.
  unfold has_service. intros H. apply andb_prop in H as [H1 H2].
  apply negb_true_iff in H1, H2.
  simpl. unfold prop. rewrite H1. simpl. fold (service_of a).
  now rewrite H2.
Qed.

Lemma provider_read (a : Adapter) (k : string) :
  has_provider a = true ->
  props (serverless a) ["service"; "provider"; k]
  = Ok (member (provider_of a) k).
Proof.
  unfold has_provider, has_service. intros H.
  apply andb_prop in H as [H H3]. apply andb_prop in H as [H1 H2].
  apply negb_true_iff in H1, H2, H3.
  simpl. unfold prop. rewrite H1. simpl. fold (service_of a).
  rewrite H2. simpl. fold (provider_of a). now rewrite H3.
Qed.

Lemma truthy_not_nullish (v : JS.value) : truthy v = true -> nullish v = false.
Proof. destruct v; simpl; congruence. Qed.

(** C4. [getStackName] returns the configured stack-name override when one
    is set; otherwise it returns the service name and the resolved stage
    joined by a hyphen, and service ["svc"] at stage ["dev"] gives
    ["svc-dev"]. *)
Theorem getStackName_override_or_joined :
  (forall a : Adapter,
      has_provider a = true ->
      truthy (member (provider_of a) "stackName") = true ->
      getStackName a = Ok (member (provider_of a) "stackName"))
  /\ (forall (a : Adapter) (svc stg : string),
         has_provider a = true ->
         truthy (member (provider_of a) "stackName") = false ->
         member (service_of a) "service" = VStr svc ->
         getStage a = VStr stg ->
         getStackName a = Ok (VStr (svc ++ "-" ++ stg)))
  /\ (getStage (sample [] []) = VStr "dev"
      /\ getStackName (sample [] []) = Ok (VStr "svc-dev")).
Proof.
  split; [|split].
  - intros a Hp Hs. unfold getStackName.
    rewrite (provider_read a "stackName" Hp). simpl. now rewrite Hs.
  - intros a svc stg Hp Hs Hsvc Hstg. unfold getStackName.
    rewrite (provider_read a "stackName" Hp).
    cbn [bindR]. rewrite Hs.
    unfold has_provider in Hp. apply andb_prop in Hp as [Hp _].
    rewrite (service_read a "service" Hp). cbn [bindR].
    now rewrite Hsvc, Hstg.
  - split; reflexivity.
Qed.

Lemma getStackName_override_or_joined_witness :
  getStackName (sample [] [("stackName", VStr "custom")])
  = Ok (VStr "custom")
  /\ getStackName (sample [("stage", VStr "prod")] [])
     = Ok (VStr ("svc" ++ "-" ++ "prod")).
Proof.
  destruct getStackName_override_or_joined as [H1 [H2 _]]. split.
  - apply (H1 (sample [] [("stackName", VStr "custom")])); reflexivity.
  - apply (H2 (sample [("stage", VStr "prod")] []) "svc" "prod");
      reflexivity.
Defined.

(** C7. [getDeploymentBucketName] returns the configured name when the
    deployment-bucket configuration is present with a name, and
    [undefined], without failing, when the configuration or its name is
    absent. *)
Theorem getDeploymentBucketName_name_or_undefined :
  forall a : Adapter,
    has_provider a = true ->
    let config := member (provider_of a) "deploymentBucket" in
    getDeploymentBucketName a
    = Ok (if truthy config && truthy (member config "name")
          then member config "name" else VUndefined)
    /\ (config = VUndefined -> getDeploymentBucketName a = Ok VUndefined)
    /\ (member config "name" = VUndefined ->
        getDeploymentBucketName a = Ok VUndefined)
    /\ (forall (fields : list (string * JS.value)) (bucket : string),
           config = VObj fields ->
           lookup "name" fields = VStr bucket ->
           bucket <> "" ->
           getDeploymentBucketName a = Ok (VStr bucket)).
Proof.
  intros a Hp config.
  assert (Hmain : getDeploymentBucketName a
                  = Ok (if truthy config && truthy (member config "name")
                        then member config "name" else VUndefined)).
  { unfold getDeploymentBucketName.
    rewrite (provider_read a "deploymentBucket" Hp). cbn [bindR].
    fold config. destruct (truthy config) eqn:Hc; [|reflexivity].
    unfold prop. rewrite (truthy_not_nullish _ Hc). cbn [bindR andb].
    destruct (truthy (member config "name")); reflexivity. }
  split; [exact Hmain|]. rewrite Hmain. split; [|split].
  - intros E. rewrite E. reflexivity.
  - intros E. rewrite E. simpl. now rewrite andb_false_r.
  - intros fields bucket E Hn Hne. rewrite E. simpl. rewrite Hn. simpl.
    destruct (String.eqb_spec bucket ""); [congruence | reflexivity].
Qed.

Lemma getDeploymentBucketName_name_or_undefined_witness :
  getDeploymentBucketName
    (sample [] [("deploymentBucket", VObj [("name", VStr "artifacts")])])
  = Ok (VStr "artifacts")
  /\ getDeploymentBucketName (sample [] []) = Ok VUndefined
  /\ getDeploymentBucketName
       (sample [] [("deploymentBucket", VObj [("blockPublicAccess",
                                               VBool true)])])
     = Ok VUndefined.
Proof.
  split; [|split].
  - apply (getDeploymentBucketName_name_or_undefined
             (sample [] [("deploymentBucket",
                          VObj [("name", VStr "artifacts")])])
             eq_refl)
      with (fields := [("name", VStr "artifacts")]);
      [reflexivity | reflexivity | discriminate].
  - apply (getDeploymentBucketName_name_or_undefined (sample [] []) eq_refl).
    reflexivity.
  - apply (getDeploymentBucketName_name_or_undefined
             (sample [] [("deploymentBucket",
                          VObj [("blockPublicAccess", VBool true)])])
             eq_refl).
    reflexivity.
Defined.

(** *** Package artifacts *)

Lemma getFunctionZipPath_eval (a : Adapter) (functionName : string)
      (func : JS.value) :
  has_service a = true ->
  getFunction a functionName = Ok func ->
  nullish func = false ->
  getFunctionZipPath a functionName
  = if truthy (function_artifact func) then Ok (function_artifact func)
    else if truthy (member (service_of a) "artifact")
         then Ok (member (service_of a) "artifact")
         else Throw (Error "Could not find zip package").
Proof.
  intros Hs Hf Hn. unfold getFunctionZipPath, function_artifact.
  rewrite !(service_read a _ Hs), Hf. cbn [bindR props].
  unfold prop. rewrite Hn. cbn [bindR].
  destruct (truthy (member func "package")) eqn:Hp.
  - rewrite (truthy_not_nullish _ Hp). cbn [bindR].
    destruct (truthy (member (member func "package") "artifact"));
      [reflexivity|].
    destruct (truthy (member (service_of a) "artifact")); reflexivity.
  - cbn [bindR]. rewrite Hp. simpl.
    destruct (truthy (member (service_of a) "artifact")); reflexivity.
Qed.

(** C3. For every function name the host resolves to a function
    definition, [getFunctionZipPath] returns the function's own package
    artifact when it is set, whatever the service-wide artifact is; when
    neither is set it fails with the error "Could not find zip package". *)
Theorem getFunctionZipPath_precedence :
  forall (a : Adapter) (functionName : string) (func : JS.value),
    has_service a = true ->
    getFunction a functionName = Ok func ->
    nullish func = false ->
    (truthy (function_artifact func) = true ->
     getFunctionZipPath a functionName = Ok (function_artifact func))
    /\ (truthy (function_artifact func) = false ->
        truthy (member (service_of a) "artifact") = false ->
        getFunctionZipPath a functionName
        = Throw (Error "Could not find zip package")).
Proof.
  intros a functionName func Hs Hf Hn.
  rewrite (getFunctionZipPath_eval a functionName func Hs Hf Hn). split.
  - intros Ha. now rewrite Ha.
  - intros Ha Hsa. now rewrite Ha, Hsa.
Qed.

Lemma getFunctionZipPath_precedence_witness :
  getFunctionZipPath
    (packaged (VObj [("package", VObj [("artifact", VStr "hello.zip")])])
              [("artifact", VStr "service.zip")])
    "hello"
  = Ok (VStr "hello.zip")
  /\ getFunctionZipPath (packaged (VObj [("handler", VStr "index.main")]) [])
                        "hello"
     = Throw (Error "Could not find zip package").
Proof.
  split.
  - apply (getFunctionZipPath_precedence
             (packaged (VObj [("package",
                               VObj [("artifact", VStr "hello.zip")])])
                       [("artifact", VStr "service.zip")])
             "hello"
             (VObj [("package", VObj [("artifact", VStr "hello.zip")])])
             eq_refl eq_refl eq_refl).
    reflexivity.
  - apply (getFunctionZipPath_precedence
             (packaged (VObj [("handler", VStr "index.main")]) [])
             "hello" (VObj [("handler", VStr "index.main")])
             eq_refl eq_refl eq_refl); reflexivity.
Defined.

(** *** Calls into the credentials API and the toolkit *)

Lemma constructions_app_one (cs : list Call) (profile : JS.value) :
  constructions (cs ++ [WithAwsCliCompatibleDefaults profile])%list
  = S (constructions cs).
Proof.
  induction cs as [|c cs IH]; simpl; [reflexivity|].
  destruct c; simpl; now rewrite IH.
Qed.

Section RunFacts.
Variable toolkit : Toolkit.

Lemma getAccountInfo_run (s : State) (id : CallerIdentity) :
  sts_getCallerIdentity toolkit (calls s) (getRegion (this s)) = Ok id ->
  getAccountInfo toolkit s
  = (Ok {| accountId := of_option (Account id);
           partition := Lodash.nth (Lodash.split (of_option (Arn id)) ":") 1;
           arn := of_option (Arn id);
           userId := of_option (UserId id) |},
     logged s (GetCallerIdentity (getRegion (this s)))).
Proof.
  intros H. unfold getAccountInfo, bind, pure, invoke, ret. now rewrite H.
Qed.

Lemma getAccountId_run (s : State) (id : CallerIdentity) :
  sts_getCallerIdentity toolkit (calls s) (getRegion (this s)) = Ok id ->
  getAccountId toolkit s
  = (Ok (of_option (Account id)),
     logged s (GetCallerIdentity (getRegion (this s)))).
Proof.
  intros H. unfold getAccountId, bind at 1.
  now rewrite (getAccountInfo_run s id H).
Qed.

Lemma getEnvironment_run (s : State) (id : CallerIdentity) :
  sts_getCallerIdentity toolkit (calls s) (getRegion (this s)) = Ok id ->
  getEnvironment toolkit s
  = (Ok {| name := getStage (this s);
           account := of_option (Account id);
           region := getRegion (this s) |},
     logged s (GetCallerIdentity (getRegion (this s)))).
Proof.
  intros H. unfold getEnvironment, bind at 1.
  now rewrite (getAccountId_run s id H).
Qed.

(** With the handle already assigned, [getSdkProvider] touches nothing. *)
Lemma getSdkProvider_cached (s : State) (p : SdkProvider) :
  sdkProvider (this s) = Some p -> getSdkProvider toolkit s = (Ok p, s).
Proof.
  intros H. unfold getSdkProvider, bind, pure. now rewrite H.
Qed.

(** Without it, the toolkit is asked once, for the resolved profile. *)
Lemma getSdkProvider_first (s : State) :
  sdkProvider (this s) = None ->
  getSdkProvider toolkit s
  = match SdkProvider_withAwsCliCompatibleDefaults toolkit (calls s)
            (getProfile (this s)) with
    | Ok p =>
        (Ok p,
         {| this := {| options := options (this s);
                       serverless := serverless (this s);
                       getFunction := getFunction (this s);
                       tsCompiled := tsCompiled (this s);
                       sdkProvider := Some p |};
            calls := (calls s
                      ++ [WithAwsCliCompatibleDefaults (getProfile (this s))])%list
         |})
    | Throw e =>
        (Throw e,
         logged s (WithAwsCliCompatibleDefaults (getProfile (this s))))
    end.
Proof.
  intros H.
  unfold getSdkProvider, bind, pure, invoke, set_sdkProvider, ret, logged.
  rewrite H.
  destruct (SdkProvider_withAwsCliCompatibleDefaults toolkit (calls s)
              (getProfile (this s))); reflexivity.
Qed.

(** A successful [getSdkProvider] leaves the handle assigned and the
    configuration as it was. *)
Lemma getSdkProvider_post (s s1 : State) (p : SdkProvider) :
  getSdkProvider toolkit s = (Ok p, s1) ->
  sdkProvider (this s1) = Some p
  /\ options (this s1) = options (this s)
  /\ serverless (this s1) = serverless (this s)
  /\ tsCompiled (this s1) = tsCompiled (this s).
Proof.
  destruct (sdkProvider (this s)) as [q|] eqn:E.
  - rewrite (getSdkProvider_cached s q E). intros H. inversion H; subst.
    repeat split; reflexivity || assumption.
  - rewrite (getSdkProvider_first s E).
    destruct (SdkProvider_withAwsCliCompatibleDefaults toolkit (calls s)
                (getProfile (this s))); intros H; inversion H; subst.
    repeat split; reflexivity.
Qed.

Lemma getSdkProvider_each_cached (n : nat) (s : State) (p : SdkProvider) :
  sdkProvider (this s) = Some p ->
  getSdkProvider_each toolkit n s = (repeat (Ok p) n, s).
Proof.
  intros H. induction n as [|n IH]; simpl; [reflexivity|].
  now rewrite (getSdkProvider_cached s p H), IH.
Qed.

(** Awaited at once, the two halves of [getSdkProvider] are the method. *)
Lemma getSdkProvider_phases (s : State) :
  getSdkProvider toolkit s
  = let (w, s') := getSdkProvider_call toolkit s in
    getSdkProvider_resume w s'.
Proof.
  unfold getSdkProvider_call.
  destruct (sdkProvider (this s)) as [q|] eqn:E.
  - now rewrite (getSdkProvider_cached s q E).
  - rewrite (getSdkProvider_first s E). unfold getSdkProvider_resume.
    destruct (SdkProvider_withAwsCliCompatibleDefaults toolkit (calls s)
                (getProfile (this s))); reflexivity.
Qed.

Lemma in_repeat_ok (n : nat) (p q : SdkProvider) :
  In (Ok q) (repeat (Ok p) n) -> q = p.
Proof. intros H. apply repeat_spec in H. now injection H. Qed.

(** The requests made by [n] awaited calls: one per failed call, and one
    more for the call that succeeds first when the handle was missing. *)
Lemma getSdkProvider_each_requests (n : nat) :
  forall s : State,
    constructions (calls (snd (getSdkProvider_each toolkit n s)))
    = constructions (calls s)
      + failures (fst (getSdkProvider_each toolkit n s))
      + match sdkProvider (this s) with
        | Some _ => 0
        | None => if succeeded (fst (getSdkProvider_each toolkit n s))
                  then 1 else 0
        end
    /\ (forall p q : SdkProvider,
           In (Ok p) (fst (getSdkProvider_each toolkit n s)) ->
           In (Ok q) (fst (getSdkProvider_each toolkit n s)) ->
           p = q).
Proof.
  induction n as [|n IH]; intros s.
  - simpl. destruct (sdkProvider (this s)); split; (lia || now intros).
  - change (getSdkProvider_each toolkit (S n) s)
      with (let (r, s') := getSdkProvider toolkit s in
            let (rs, s'') := getSdkProvider_each toolkit n s' in
            (r :: rs, s'')).
    destruct (sdkProvider (this s)) as [h|] eqn:E.
    + rewrite (getSdkProvider_cached s h E).
      rewrite (getSdkProvider_each_cached n s h E). cbn [fst snd].
      assert (F : forall m, failures (repeat (Ok h) m) = 0)
        by (induction m; simpl; auto).
      split.
      * simpl. rewrite F. lia.
      * intros p q Hp Hq.
        change (Ok h :: repeat (Ok h) n) with (repeat (Ok h) (S n)) in Hp, Hq.
        apply in_repeat_ok in Hp, Hq. congruence.
    + rewrite (getSdkProvider_first s E).
      destruct (SdkProvider_withAwsCliCompatibleDefaults toolkit (calls s)
                  (getProfile (this s))) as [h|e].
      * rewrite getSdkProvider_each_cached with (p := h) by reflexivity.
        cbn [fst snd calls].
        assert (F : forall m, failures (repeat (Ok h) m) = 0)
          by (induction m; simpl; auto).
        split.
        -- rewrite constructions_app_one. simpl. rewrite F. lia.
        -- intros p q Hp Hq.
           change (Ok h :: repeat (Ok h) n) with (repeat (Ok h) (S n))
             in Hp, Hq.
           apply in_repeat_ok in Hp, Hq. congruence.
      * destruct (IH (logged s (WithAwsCliCompatibleDefaults
                                  (getProfile (this s))))) as [Hc Hu].
        cbn [this logged] in Hc. rewrite E in Hc.
        destruct (getSdkProvider_each toolkit n
                    (logged s (WithAwsCliCompatibleDefaults
                                 (getProfile (this s))))) as [rs s''].
        cbn [fst snd] in *. split.
        -- rewrite Hc. unfold logged. cbn [calls].
           rewrite constructions_app_one. simpl. lia.
        -- intros p q [Hp|Hp] [Hq|Hq]; try discriminate. now apply Hu.
Qed.

End RunFacts.

Lemma self_stable (a b : Adapter) :
  options b = options a ->
  serverless b = serverless a ->
  tsCompiled b = tsCompiled a ->
  self b = self a.
Proof. intros H1 H2 H3. unfold self. now rewrite H1, H2, H3. Qed.

(** C6.  When every call of [getSdkProvider] is awaited before
    the next is made, the toolkit handle is constructed at most once per
    adapter.  A call on an adapter without a handle asks the toolkit once,
    for the resolved profile; it yields the toolkit's answer and assigns
    it, or fails with the toolkit's error and assigns nothing.  A call on
    an adapter with a handle yields that handle and leaves the adapter and
    the list of calls as they are, so every call after a successful one
    returns the same handle.  In any run of such calls the requests made
    are one per failed call and one for the first successful call, and
    all successful calls return one and the same handle. *)
Theorem getSdkProvider_constructed_once (toolkit : Toolkit) :
  (forall s : State,
      sdkProvider (this s) = None ->
      match SdkProvider_withAwsCliCompatibleDefaults toolkit (calls s)
              (getProfile (this s)) with
      | Ok p =>
          getSdkProvider toolkit s
          = (Ok p,
             {| this := with_handle (this s) p;
                calls := (calls s
                          ++ [WithAwsCliCompatibleDefaults
                                (getProfile (this s))])%list |})
      | Throw e =>
          getSdkProvider toolkit s
          = (Throw e,
             logged s (WithAwsCliCompatibleDefaults (getProfile (this s))))
      end)
  /\ (forall (s : State) (p : SdkProvider),
         sdkProvider (this s) = Some p ->
         getSdkProvider toolkit s = (Ok p, s))
  /\ (forall (s s1 : State) (p : SdkProvider),
         getSdkProvider toolkit s = (Ok p, s1) ->
         sdkProvider (this s1) = Some p
         /\ (forall n : nat,
                getSdkProvider_each toolkit n s1 = (repeat (Ok p) n, s1)))
  /\ (forall (n : nat) (s : State),
         constructions (calls (snd (getSdkProvider_each toolkit n s)))
         = constructions (calls s)
           + failures (fst (getSdkProvider_each toolkit n s))
           + match sdkProvider (this s) with
             | Some _ => 0
             | None => if succeeded (fst (getSdkProvider_each toolkit n s))
                       then 1 else 0
             end
         /\ (forall p q : SdkProvider,
                In (Ok p) (fst (getSdkProvider_each toolkit n s)) ->
                In (Ok q) (fst (getSdkProvider_each toolkit n s)) ->
                p = q)).
Proof.
  split; [|split; [|split]].
  - intros s E. rewrite (getSdkProvider_first toolkit s E).
    destruct (SdkProvider_withAwsCliCompatibleDefaults toolkit (calls s)
                (getProfile (this s))); reflexivity.
  - intros s p E. now apply getSdkProvider_cached.
  - intros s s1 p H.
    destruct (getSdkProvider_post toolkit s s1 p H) as [Hp _].
    split; [exact Hp|]. intros n. now apply getSdkProvider_each_cached.
  - intros n s. apply getSdkProvider_each_requests.
Qed.

Lemma getSdkProvider_constructed_once_witness :
  getSdkProvider answering (fresh (sample [] []))
  = (Ok (SdkProviderRef 0),
     {| this := with_handle (sample [] []) (SdkProviderRef 0);
        calls := [WithAwsCliCompatibleDefaults VUndefined] |})
  /\ getSdkProvider answering
       {| this := with_handle (sample [] []) (SdkProviderRef 0);
          calls := [WithAwsCliCompatibleDefaults VUndefined] |}
     = (Ok (SdkProviderRef 0),
        {| this := with_handle (sample [] []) (SdkProviderRef 0);
           calls := [WithAwsCliCompatibleDefaults VUndefined] |})
  /\ getSdkProvider_each answering 3
       {| this := with_handle (sample [] []) (SdkProviderRef 0);
          calls := [WithAwsCliCompatibleDefaults VUndefined] |}
     = (repeat (Ok (SdkProviderRef 0)) 3,
        {| this := with_handle (sample [] []) (SdkProviderRef 0);
           calls := [WithAwsCliCompatibleDefaults VUndefined] |}).
Proof.
  destruct (getSdkProvider_constructed_once answering) as [H1 [H2 [H3 _]]].
  assert (E : getSdkProvider answering (fresh (sample [] []))
              = (Ok (SdkProviderRef 0),
                 {| this := with_handle (sample [] []) (SdkProviderRef 0);
                    calls := [WithAwsCliCompatibleDefaults VUndefined] |}))
    by exact (H1 (fresh (sample [] [])) eq_refl).
  split; [exact E|]. split.
  - apply (H2 {| this := with_handle (sample [] []) (SdkProviderRef 0);
                 calls := [WithAwsCliCompatibleDefaults VUndefined] |}
              (SdkProviderRef 0)).
    reflexivity.
  - apply (H3 (fresh (sample [] []))
              {| this := with_handle (sample [] []) (SdkProviderRef 0);
                 calls := [WithAwsCliCompatibleDefaults VUndefined] |}
              (SdkProviderRef 0) E).
Defined.

(** Two calls of [getSdkProvider] on a fresh adapter, the second made
    before the first has settled: the toolkit is asked twice, the callers
    get two different handles, and the adapter keeps the second. *)
Lemma getSdkProvider_overlapping_constructs_twice :
  fst (getSdkProvider_overlapped answering (fresh (sample [] [])))
  = (Ok (SdkProviderRef 0), Ok (SdkProviderRef 1))
  /\ calls (snd (getSdkProvider_overlapped answering (fresh (sample [] []))))
     = [ WithAwsCliCompatibleDefaults VUndefined;
         WithAwsCliCompatibleDefaults VUndefined ]
  /\ sdkProvider
       (this (snd (getSdkProvider_overlapped answering
                     (fresh (sample [] [])))))
     = Some (SdkProviderRef 1)
  /\ ~ constructions
         (calls (snd (getSdkProvider_overlapped answering
                        (fresh (sample [] [])))))
       <= 1.
Proof.
  split; [reflexivity|]. split; [reflexivity|]. split; [reflexivity|].
  intros H. vm_compute in H. lia.
Qed.

(** *** Role assumption and environment sessions *)

Lemma getCfnRoleArn_eval (a : Adapter) :
  has_provider a = true ->
  getCfnRoleArn a = Ok (or_else (member (provider_of a) "cfnRole") VUndefined).
Proof.
  intros Hp. unfold getCfnRoleArn. now rewrite (provider_read a "cfnRole" Hp).
Qed.

(** C5. [getSdk] branches on the configured cross-account role ARN.  With
    one, it ends in the toolkit's role assumption, called on the adapter's
    handle with exactly (role ARN, account id, region); without one, it
    ends in a session request for the environment descriptor (stage,
    account id, region) in for-writing mode.  In both cases the toolkit's
    answer is what [getSdk] yields. *)
Theorem getSdk_branches (toolkit : Toolkit) :
  forall (s s1 : State) (p : SdkProvider) (id : CallerIdentity),
    has_provider (this s) = true ->
    getSdkProvider toolkit s = (Ok p, s1) ->
    sts_getCallerIdentity toolkit (calls s1) (getRegion (this s)) = Ok id ->
    let roleArn := member (provider_of (this s)) "cfnRole" in
    let accountId := of_option (Account id) in
    let region := getRegion (this s) in
    let environment := {| name := getStage (this s);
                          account := accountId;
                          region := region |} in
    let h := (calls s1 ++ [GetCallerIdentity region])%list in
    (truthy roleArn = true ->
     getSdk toolkit s
     = (SdkProvider_withAssumedRole toolkit h p roleArn accountId region,
        {| this := this s1;
           calls := (h ++ [WithAssumedRole p roleArn accountId region])%list |}))
    /\ (truthy roleArn = false ->
        getSdk toolkit s
        = (SdkProvider_forEnvironment toolkit h p environment ForWriting,
           {| this := this s1;
              calls := (h ++ [ForEnvironment p environment ForWriting])%list |})).
Proof.
  intros s s1 p id Hp Hprov Hid roleArn accountId region environment h.
  destruct (getSdkProvider_post toolkit s s1 p Hprov) as [_ [Ho [Hs Ht]]].
  assert (Hself : self (this s1) = self (this s))
    by (now apply self_stable).
  assert (Hregion : getRegion (this s1) = getRegion (this s))
    by (unfold getRegion, getRegionSourceValue; now rewrite Hself).
  assert (Hstage : getStage (this s1) = getStage (this s))
    by (unfold getStage, getStageSourceValue; now rewrite Hself).
  rewrite <- Hregion in Hid.
  split; intros Hrole;
    unfold getSdk, bind at 1, sync;
    rewrite (getCfnRoleArn_eval (this s) Hp); fold roleArn;
    unfold bind at 1; rewrite Hprov.
  - assert (E : or_else roleArn VUndefined = roleArn)
      by (unfold or_else; now rewrite Hrole).
    rewrite E, Hrole. unfold bind at 1.
    rewrite (getAccountId_run toolkit s1 id Hid).
    unfold bind, pure, invoke, logged. cbn [this calls].
    rewrite Hregion. reflexivity.
  - assert (E : truthy (or_else roleArn VUndefined) = false)
      by (unfold or_else; now rewrite Hrole).
    rewrite E. unfold bind at 1.
    rewrite (getEnvironment_run toolkit s1 id Hid).
    unfold invoke, logged. cbn [this calls].
    rewrite Hregion, Hstage. reflexivity.
Qed.

Lemma getSdk_branches_witness :
  let role := VStr "arn:aws:iam::123456789012:role/deploy" in
  let account := VStr "123456789012" in
  let region := VStr "us-east-1" in
  (fst (getSdk answering (fresh (sample [] [("cfnRole", role)])))
   = Ok (SdkRef 2)
   /\ calls (snd (getSdk answering (fresh (sample [] [("cfnRole", role)]))))
      = [ WithAwsCliCompatibleDefaults VUndefined;
          GetCallerIdentity region;
          WithAssumedRole (SdkProviderRef 0) role account region ])
  /\ (fst (getSdk answering (fresh (sample [] []))) = Ok (SdkRef 2)
      /\ calls (snd (getSdk answering (fresh (sample [] []))))
         = [ WithAwsCliCompatibleDefaults VUndefined;
             GetCallerIdentity region;
             ForEnvironment (SdkProviderRef 0)
               {| name := VStr "dev"; account := account; region := region |}
               ForWriting ]).
Proof.
  intros role account region. split.
  - pose proof
      (proj1 (getSdk_branches answering
                (fresh (sample [] [("cfnRole", role)]))
                (snd (getSdkProvider answering
                        (fresh (sample [] [("cfnRole", role)]))))
                (SdkProviderRef 0)
                {| Arn := Some "arn:aws:iam::123456789012:user/dev";
                   Account := Some "123456789012";
                   UserId := Some "AIDACKCEVSQ6C2EXAMPLE" |}
                eq_refl eq_refl eq_refl) eq_refl) as H.
    rewrite H. split; reflexivity.
  - pose proof
      (proj2 (getSdk_branches answering
                (fresh (sample [] []))
                (snd (getSdkProvider answering (fresh (sample [] []))))
                (SdkProviderRef 0)
                {| Arn := Some "arn:aws:iam::123456789012:user/dev";
                   Account := Some "123456789012";
                   UserId := Some "AIDACKCEVSQ6C2EXAMPLE" |}
                eq_refl eq_refl eq_refl) eq_refl) as H.
    rewrite H. split; reflexivity.
Defined.

(** *** Account information *)

Lemma split_segment (p t : string) :
  every (outside is_colon) p = true ->
  JS.split ":" (p ++ String ":" t) = p :: JS.split ":" t.
Proof.
  induction p as [|c p IH]; simpl; intros H; [reflexivity|].
  apply andb_prop in H as [Hc Hp]. unfold outside, is_colon in Hc.
  apply negb_true_iff in Hc. rewrite Hc. now rewrite (IH Hp).
Qed.

Lemma split_last (p : string) :
  every (outside is_colon) p = true -> JS.split ":" p = [p].
Proof.
  induction p as [|c p IH]; simpl; intros H; [reflexivity|].
  apply andb_prop in H as [Hc Hp]. unfold outside, is_colon in Hc.
  apply negb_true_iff in Hc. rewrite Hc. now rewrite (IH Hp).
Qed.

Lemma append_empty (s : string) : s ++ "" = s.
Proof. induction s as [|c s IH]; simpl; [reflexivity | now rewrite IH]. Qed.

Lemma second_segment (p0 p1 rest : string) :
  every (outside is_colon) p0 = true ->
  every (outside is_colon) p1 = true ->
  opens_with is_colon rest = true ->
  nth_error (JS.split ":" (p0 ++ ":" ++ p1 ++ rest)) 1 = Some p1.
Proof.
  intros H0 H1 Hr. change (":" ++ p1 ++ rest) with (String ":" (p1 ++ rest)).
  rewrite (split_segment p0 _ H0).
  destruct rest as [|c rest]; simpl in Hr.
  - rewrite append_empty. now rewrite (split_last p1 H1).
  - unfold is_colon in Hr. apply Ascii.eqb_eq in Hr. subst c.
    now rewrite (split_segment p1 rest H1).
Qed.

(** C8. The [partition] that [getAccountInfo] reports is the second
    segment of the ARN answered by the identity call, the ARN being cut at
    every [":"]. *)
Theorem getAccountInfo_partition (toolkit : Toolkit) :
  (forall (s : State) (id : CallerIdentity) (arn : string),
      sts_getCallerIdentity toolkit (calls s) (getRegion (this s)) = Ok id ->
      Arn id = Some arn ->
      partition_of (getAccountInfo toolkit s)
      = Some (of_option (nth_error (JS.split ":" arn) 1)))
  /\ (forall (s : State) (id : CallerIdentity) (p0 p1 rest : string),
         sts_getCallerIdentity toolkit (calls s) (getRegion (this s)) = Ok id ->
         Arn id = Some (p0 ++ ":" ++ p1 ++ rest) ->
         every (outside is_colon) p0 = true ->
         every (outside is_colon) p1 = true ->
         opens_with is_colon rest = true ->
         partition_of (getAccountInfo toolkit s) = Some (VStr p1)).
Proof.
  assert (G : forall s id arn,
             sts_getCallerIdentity toolkit (calls s) (getRegion (this s))
             = Ok id ->
             Arn id = Some arn ->
             partition_of (getAccountInfo toolkit s)
             = Some (of_option (nth_error (JS.split ":" arn) 1))).
  { intros s id arn Hid Harn. unfold partition_of.
    rewrite (getAccountInfo_run toolkit s id Hid). cbn [fst partition].
    now rewrite Harn. }
  split; [exact G|].
  intros s id p0 p1 rest Hid Harn H0 H1 Hr.
  rewrite (G s id _ Hid Harn). now rewrite (second_segment p0 p1 rest H0 H1 Hr).
Qed.

Lemma getAccountInfo_partition_witness :
  partition_of (getAccountInfo answering (fresh (sample [] [])))
  = Some (of_option
            (nth_error (JS.split ":" "arn:aws:iam::123456789012:user/dev") 1))
  /\ partition_of (getAccountInfo answering (fresh (sample [] [])))
     = Some (VStr "aws").
Proof.
  destruct (getAccountInfo_partition answering) as [H1 H2]. split.
  - apply (H1 (fresh (sample [] []))
              {| Arn := Some "arn:aws:iam::123456789012:user/dev";
                 Account := Some "123456789012";
                 UserId := Some "AIDACKCEVSQ6C2EXAMPLE" |}
              "arn:aws:iam::123456789012:user/dev"); reflexivity.
  - apply (H2 (fresh (sample [] []))
              {| Arn := Some "arn:aws:iam::123456789012:user/dev";
                 Account := Some "123456789012";
                 UserId := Some "AIDACKCEVSQ6C2EXAMPLE" |}
              "arn" "aws" ":iam::123456789012:user/dev"); reflexivity.
Defined.

(* ================================================================== *)
(** ** Further properties of the adapter *)
(* ================================================================== *)

(** *** Sanitising strings *)

Lemma only_app (f : ascii -> bool) (s t : string) :
  only f (s ++ t) = only f s ++ only f t.
Proof.
  induction s as [|c s IH]; simpl; [reflexivity|].
  destruct (f c); simpl; now rewrite IH.
Qed.

Lemma only_length (f : ascii -> bool) (s : string) :
  length (only f s) <= length s.
Proof.
  induction s as [|c s IH]; simpl; [lia|]. destruct (f c); simpl; lia.
Qed.

Lemma alnum_allowed (c : ascii) :
  alnum_or_hyphen c = false -> alnum c = false.
Proof.
  unfold alnum_or_hyphen. intros H. now apply orb_false_iff in H as [H _].
Qed.

Lemma skip_run_only (s : string) :
  only alnum (skip_run alnum_or_hyphen s) = only alnum s.
Proof.
  induction s as [|c s IH]; simpl; [reflexivity|].
  destruct (alnum_or_hyphen c) eqn:E; [reflexivity|].
  now rewrite (alnum_allowed c E).
Qed.

Lemma skip_run_length (keep : ascii -> bool) (s : string) :
  length (skip_run keep s) <= length s.
Proof.
  induction s as [|c s IH]; simpl; [lia|]. destruct (keep c); simpl; lia.
Qed.

Lemma skip_run_runs (keep : ascii -> bool) (s : string) :
  runs keep false (skip_run keep s) = runs keep true s.
Proof.
  induction s as [|c s IH]; simpl; [reflexivity|].
  destruct (keep c) eqn:E; simpl; [now rewrite E | exact IH].
Qed.

Lemma every_no_runs (keep : ascii -> bool) (s : string) :
  every keep s = true <-> runs keep false s = 0.
Proof.
  induction s as [|c s IH]; simpl; [tauto|].
  destruct (keep c); simpl; [exact IH|]. split; [discriminate | lia].
Qed.

Lemma canonicalise_runs (s : string) :
  offending_runs (canonicalise s) = Nat.pred (offending_runs s).
Proof.
  unfold offending_runs, canonicalise.
  induction s as [|c s IH]; simpl; [reflexivity|].
  destruct (alnum_or_hyphen c) eqn:E; simpl.
  - now rewrite E.
  - now rewrite skip_run_runs.
Qed.

(** X1. [makeAlphanumeric] works piece by piece: sanitising a
    concatenation gives the concatenation of the sanitised parts. *)
Theorem makeAlphanumeric_concat :
  forall s t : string,
    makeAlphanumeric (s ++ t) = makeAlphanumeric s ++ makeAlphanumeric t.
Proof.
  intros s t. unfold makeAlphanumeric, replace_all.
  rewrite !replace_all_from_deletes. apply only_app.
Qed.

(** X2. [canonicalise] does not change what [makeAlphanumeric] returns:
    the hyphen it writes and the characters it drops are all removed by
    [makeAlphanumeric] anyway. *)
Theorem makeAlphanumeric_after_canonicalise :
  forall s : string, makeAlphanumeric (canonicalise s) = makeAlphanumeric s.
Proof.
  intros s. unfold makeAlphanumeric, replace_all, canonicalise.
  rewrite !replace_all_from_deletes.
  induction s as [|c s IH]; simpl; [reflexivity|].
  destruct (alnum_or_hyphen c) eqn:E; simpl.
  - now rewrite IH.
  - rewrite (alnum_allowed c E). apply skip_run_only.
Qed.

(** X3. The strings [canonicalise] returns unchanged are exactly those
    made of characters of [[a-zA-Z0-9-]] only. *)
Theorem canonicalise_fixed_points :
  forall s : string,
    canonicalise s = s <-> every alnum_or_hyphen s = true.
Proof.
  intros s. split.
  - unfold canonicalise. induction s as [|c s IH]; simpl; [reflexivity|].
    destruct (alnum_or_hyphen c) eqn:E; simpl; intros H.
    + injection H as H. now apply IH.
    + injection H as Hc _. subst c. discriminate E.
  - apply replace_first_clean.
Qed.

(** X4. One call of [canonicalise] removes exactly one run of characters
    outside [[a-zA-Z0-9-]]; its result is free of such characters exactly
    when the input holds at most one run. *)
Theorem canonicalise_removes_one_run :
  forall s : string,
    offending_runs (canonicalise s) = Nat.pred (offending_runs s)
    /\ (every alnum_or_hyphen (canonicalise s) = true
        <-> offending_runs s <= 1).
Proof.
  intros s. split; [apply canonicalise_runs|].
  rewrite every_no_runs. fold (offending_runs (canonicalise s)).
  rewrite canonicalise_runs. lia.
Qed.

(** X5. Neither helper ever returns a longer string than it was given. *)
Theorem sanitisers_never_lengthen :
  forall s : string,
    length (canonicalise s) <= length s
    /\ length (makeAlphanumeric s) <= length s.
Proof.
  intros s. split.
  - unfold canonicalise. induction s as [|c s IH]; simpl; [lia|].
    destruct (alnum_or_hyphen c); simpl; [lia|].
    pose proof (skip_run_length alnum_or_hyphen s). lia.
  - unfold makeAlphanumeric, replace_all. rewrite replace_all_from_deletes.
    apply only_length.
Qed.

(** *** Reading configuration paths *)

Lemma split_at_sep (sep : ascii) (p t : string) :
  every (outside (is_sep sep)) p = true ->
  JS.split sep (p ++ String sep t) = p :: JS.split sep t.
Proof.
  induction p as [|c p IH]; simpl; intros H.
  - now rewrite Ascii.eqb_refl.
  - apply andb_prop in H as [Hc Hp]. unfold outside, is_sep in Hc.
    apply negb_true_iff in Hc. rewrite Hc. now rewrite (IH Hp).
Qed.

Lemma split_no_sep (sep : ascii) (p : string) :
  every (outside (is_sep sep)) p = true -> JS.split sep p = [p].
Proof.
  induction p as [|c p IH]; simpl; intros H; [reflexivity|].
  apply andb_prop in H as [Hc Hp]. unfold outside, is_sep in Hc.
  apply negb_true_iff in Hc. rewrite Hc. now rewrite (IH Hp).
Qed.

Lemma key_char_no_dot (k : string) :
  every key_char k = true -> every (outside (is_sep ".")) k = true.
Proof.
  induction k as [|c k IH]; simpl; [reflexivity|]. intros H.
  apply andb_prop in H as [Hc Hk]. rewrite (IH Hk), andb_true_r.
  unfold key_char in Hc. unfold outside, is_sep.
  destruct (c =? ".")%char; [discriminate | reflexivity].
Qed.

Lemma split_join (keys : list string) :
  keys <> [] ->
  Forall (fun k => every key_char k = true) keys ->
  JS.split "." (join "." keys) = keys.
Proof.
  induction keys as [|k keys IH]; [congruence|]. intros _ H.
  inversion H as [|? ? Hk Hks]; subst.
  destruct keys as [|k' keys].
  - simpl. now apply split_no_sep, key_char_no_dot.
  - change (join "." (k :: k' :: keys))
      with (k ++ String "." (join "." (k' :: keys))).
    rewrite (split_at_sep "." k _ (key_char_no_dot k Hk)).
    now rewrite IH.
Qed.

Lemma split_not_empty (sep : ascii) (s : string) : JS.split sep s <> [].
Proof.
  destruct s as [|c s]; simpl; [discriminate|].
  destruct (c =? sep)%char; [discriminate|].
  destruct (JS.split sep s); discriminate.
Qed.

Lemma join_split (sep : ascii) (s : string) :
  join (String sep "") (JS.split sep s) = s.
Proof.
  induction s as [|c s IH]; simpl; [reflexivity|].
  pose proof (split_not_empty sep s) as Hne.
  destruct (JS.split sep s) as [|seg segs]; [congruence|]. clear Hne.
  destruct (c =? sep)%char eqn:E.
  - apply Ascii.eqb_eq in E. subst c.
    change (String sep (join (String sep "") (seg :: segs)) = String sep s).
    now rewrite IH.
  - destruct segs as [|seg' segs].
    + simpl in *. now rewrite IH.
    + change (String c (join (String sep "") (seg :: seg' :: segs))
              = String c s).
      now rewrite IH.
Qed.

Lemma opt_nullish (keys : list string) (o : JS.value) :
  keys <> [] -> nullish o = true -> fold_left opt keys o = VUndefined.
Proof.
  destruct keys as [|k keys]; [congruence|]. intros _ H. simpl.
  unfold opt at 2. rewrite H. apply opt_undefined.
Qed.

Lemma get_key_by_key (source : JS.value) (keys : list string) :
  keys <> [] ->
  Forall (fun k => every key_char k = true) keys ->
  no_property source (join "." keys) = true ->
  Lodash.get source (join "." keys) = fold_left opt keys source.
Proof.
  intros Hne Hk Hp. unfold Lodash.get.
  destruct (nullish source) eqn:N; [now rewrite opt_nullish|].
  unfold Lodash.baseGet.
  assert (E : Lodash.castPath (join "." keys) source = keys).
  { unfold Lodash.castPath. destruct source; try now apply split_join.
    simpl in Hp. apply negb_true_iff in Hp. rewrite Hp.
    now apply split_join. }
  rewrite E. destruct keys as [|k keys]; [congruence|]. apply walk_opt.
Qed.

Lemma firstValue_keeps_falsy (vs : list SourceValue) (acc : SourceValue) :
  truthy (value acc) = false ->
  Forall (fun r => truthy (value r) = false) vs ->
  fold_left (fun result current => if truthy (value result) then result
                                   else current) vs acc
  = last vs acc.
Proof.
  revert acc. induction vs as [|v vs IH]; intros acc Ha H; [reflexivity|].
  inversion H as [|? ? Hv Hvs]; subst. simpl fold_left. rewrite Ha.
  rewrite (IH v Hv Hvs). destruct vs as [|w vs]; [reflexivity|].
  change (last (w :: vs) v = last (w :: vs) acc). apply last_cons_default.
Qed.

Lemma firstValue_in (vs : list SourceValue) :
  vs <> [] -> In (firstValue vs) vs.
Proof.
  unfold firstValue.
  intros Hne. destruct vs as [|v vs]; [congruence|]. clear Hne.
  simpl fold_left. cbn [value truthy].
  assert (G : forall (ws : list SourceValue) (acc : SourceValue),
             let r := fold_left
                        (fun result current =>
                           if truthy (value result) then result else current)
                        ws acc in
             r = acc \/ In r ws).
  { induction ws as [|w ws IH]; intros acc; simpl; [now left|].
    destruct (truthy (value acc)).
    - destruct (IH acc) as [E|I]; [now left | right; now right].
    - destruct (IH w) as [E|I]; right; [left; now rewrite E | now right]. }
  destruct (G vs v) as [E|I]; [left; now rewrite E | now right].
Qed.

Lemma all_empty_falsy (vs : list SourceValue) :
  first_non_empty (map value vs) = None ->
  Forall (fun r => truthy (value r) = false) vs.
Proof.
  unfold first_non_empty. intros H. apply Forall_forall. intros r Hr.
  apply (find_none truthy (map value vs) H). now apply in_map.
Qed.

Lemma getValues_opt (source : JS.value) (paths : list (list string)) :
  Forall (fun keys =>
            keys <> []
            /\ Forall (fun k => every key_char k = true) keys
            /\ no_property source (join "." keys) = true) paths ->
  getValues source paths
  = map (fun keys => {| path := keys;
                        value := fold_left opt keys source |}) paths.
Proof.
  intros H. unfold getValues.
  induction H as [|keys paths [Hne [Hk Hp]] _ IH]; simpl; [reflexivity|].
  now rewrite get_key_by_key, IH.
Qed.

Lemma adapter_key_plain (k : string) :
  adapter_key k = true -> every key_char k = true.
Proof.
  unfold adapter_key. cbn [existsb]. intros H.
  repeat (apply orb_prop in H as [H|H];
          [apply String.eqb_eq in H; subst k; reflexivity|]).
  discriminate H.
Qed.

(** X6. [getValues] reads each path key by key from the source, a missing
    or null link giving [undefined], and reports the paths in the order
    given.  This holds for every source and for non-empty paths made of
    the configuration keys the adapter reads ([options], [serverless],
    [config], [service], [provider], [stage], [region], [profile],
    [aws-profile]), when the source has no property named by a whole
    dotted path. *)
Theorem getValues_key_by_key :
  forall (source : JS.value) (paths : list (list string)),
    Forall (fun keys =>
              keys <> []
              /\ Forall (fun k => adapter_key k = true) keys
              /\ no_property source (join "." keys) = true) paths ->
    getValues source paths
    = map (fun keys => {| path := keys;
                          value := fold_left opt keys source |}) paths.
Proof.
  intros source paths H. apply getValues_opt.
  apply (Forall_impl _ (P := fun keys =>
                              keys <> []
                              /\ Forall (fun k => adapter_key k = true) keys
                              /\ no_property source (join "." keys) = true));
    [|exact H].
  intros keys [Hne [Hk Hp]]. split; [exact Hne|]. split; [|exact Hp].
  apply (Forall_impl _ adapter_key_plain Hk).
Qed.

Lemma getValues_key_by_key_witness :
  getValues (self (sample [("stage", VStr "qa")] [])) stagePaths
  = [ {| path := ["options"; "stage"]; value := VStr "qa" |};
      {| path := ["serverless"; "config"; "stage"]; value := VUndefined |};
      {| path := ["serverless"; "service"; "provider"; "stage"];
         value := VUndefined |} ].
Proof.
  apply (getValues_key_by_key (self (sample [("stage", VStr "qa")] []))
                              stagePaths).
  repeat constructor; discriminate.
Defined.



Lemma chain_source_consistent (a : Adapter) (paths : list (list string)) :
  paths <> [] ->
  Forall (fun keys =>
            keys <> []
            /\ Forall (fun k => every key_char k = true) keys
            /\ no_property (self a) (join "." keys) = true) paths ->
  let r := firstValue (getValues (self a) paths) in
  In (path r) paths /\ value r = fold_left opt (path r) (self a).
Proof.
  intros Hne H r.
  assert (Hin : In r (getValues (self a) paths)).
  { apply firstValue_in. unfold getValues.
    destruct paths; [congruence | discriminate]. }
  rewrite (getValues_opt (self a) paths H) in Hin.
  apply in_map_iff in Hin as [keys [E Hk]]. rewrite <- E. simpl. now split.
Qed.

Lemma chain_paths_plain (a : Adapter) :
  Forall (fun keys =>
            keys <> []
            /\ Forall (fun k => every key_char k = true) keys
            /\ no_property (self a) (join "." keys) = true)
         (stagePaths ++ regionPaths ++ profilePaths)%list.
Proof. repeat constructor; discriminate. Qed.

(** X8. The record behind [getStage] and the one behind [getRegion] are
    consistent: the path reported is one of the chain, and the value
    reported is what the adapter holds at that path.  With nothing
    configured, the path reported is the last of the chain, the provider
    section's, and not an empty path. *)
Theorem source_values_consistent :
  forall a : Adapter,
    (In (path (getStageSourceValue a)) stagePaths
     /\ value (getStageSourceValue a)
        = fold_left opt (path (getStageSourceValue a)) (self a))
    /\ (In (path (getRegionSourceValue a)) regionPaths
        /\ value (getRegionSourceValue a)
           = fold_left opt (path (getRegionSourceValue a)) (self a))
    /\ (first_non_empty (stageChain a) = None ->
        path (getStageSourceValue a)
        = ["serverless"; "service"; "provider"; "stage"])
    /\ (first_non_empty (regionChain a) = None ->
        path (getRegionSourceValue a)
        = ["serverless"; "service"; "provider"; "region"]).
Proof.
  intros a. pose proof (chain_paths_plain a) as H.
  apply Forall_app in H as [Hs H]. apply Forall_app in H as [Hr _].
  split; [|split; [|split]].
  - apply (chain_source_consistent a stagePaths); [discriminate | exact Hs].
  - apply (chain_source_consistent a regionPaths); [discriminate | exact Hr].
  - intros E. unfold getStageSourceValue, firstValue.
    rewrite firstValue_keeps_falsy; [reflexivity | reflexivity |].
    apply all_empty_falsy. now rewrite stage_entries.
  - intros E. unfold getRegionSourceValue, firstValue.
    rewrite firstValue_keeps_falsy; [reflexivity | reflexivity |].
    apply all_empty_falsy. now rewrite region_entries.
Qed.

Lemma source_values_consistent_witness :
  path (getStageSourceValue (sample [] []))
  = ["serverless"; "service"; "provider"; "stage"]
  /\ path (getRegionSourceValue (sample [] []))
     = ["serverless"; "service"; "provider"; "region"].
Proof.
  destruct (source_values_consistent (sample [] [])) as [_ [_ [H1 H2]]].
  split; [apply H1 | apply H2]; reflexivity.
Defined.

Lemma or_else_truthy (v d : JS.value) :
  truthy d = true -> truthy (or_else v d) = true.
Proof. intros H. unfold or_else. destruct (truthy v) eqn:E; assumption. Qed.


(** X9. [getStage] and [getRegion] never return an empty value, whatever
    the options and the host hold: a stage or region that is missing,
    null, false, zero or the empty string gives way to the default. *)
Theorem stage_and_region_never_empty :
  forall a : Adapter,
    truthy (getStage a) = true /\ truthy (getRegion a) = true.
Proof.
  intros a. split; [unfold getStage | unfold getRegion];
    now apply or_else_truthy.
Qed.

(** *** Getters that read the provider section directly *)

Lemma provider_read_missing (a : Adapter) (k : string) :
  has_provider a = false ->
  props (serverless a) ["service"; "provider"; k] = Throw TypeError.
Proof.
  unfold has_provider, has_service, provider_of, service_of. intros H.
  simpl. unfold prop.
  destruct (nullish (serverless a)); [reflexivity|]. simpl.
  destruct (nullish (member (serverless a) "service")); [reflexivity|]. simpl.
  destruct (nullish (member (member (serverless a) "service") "provider"));
    [reflexivity | discriminate H].
Qed.



(** X10. The getters that read [serverless.service.provider] directly
    fail with a TypeError when the host has no service or the service no
    provider section. *)
Theorem provider_getters_need_provider :
  forall a : Adapter,
    has_provider a = false ->
    getStackName a = Throw TypeError
    /\ getStackTags a = Throw TypeError
    /\ getCfnRoleArn a = Throw TypeError
    /\ getDeploymentBucketName a = Throw TypeError.
Proof.
  intros a H.
  unfold getStackName, getStackTags, getCfnRoleArn, getDeploymentBucketName.
  rewrite !(provider_read_missing a _ H). repeat split.
Qed.

Lemma provider_getters_need_provider_witness :
  getStackName bare = Throw TypeError
  /\ getStackTags bare = Throw TypeError
  /\ getCfnRoleArn bare = Throw TypeError
  /\ getDeploymentBucketName bare = Throw TypeError.
Proof. apply (provider_getters_need_provider bare). reflexivity. Defined.



(** *** Package artifacts, continued *)

(** X12. [getFunctionZipPath] falls back to the service-wide artifact when
    the function has no artifact of its own, and a path it returns is
    never empty. *)
Theorem getFunctionZipPath_fallback :
  (forall (a : Adapter) (functionName : string) (func : JS.value),
      has_service a = true ->
      getFunction a functionName = Ok func ->
      nullish func = false ->
      truthy (function_artifact func) = false ->
      truthy (member (service_of a) "artifact") = true ->
      getFunctionZipPath a functionName = Ok (member (service_of a) "artifact"))
  /\ (forall (a : Adapter) (functionName : string) (func zip : JS.value),
         has_service a = true ->
         getFunction a functionName = Ok func ->
         nullish func = false ->
         getFunctionZipPath a functionName = Ok zip ->
         truthy zip = true).
Proof.
  split.
  - intros a functionName func Hs Hf Hn Ha Hsa.
    rewrite (getFunctionZipPath_eval a functionName func Hs Hf Hn).
    now rewrite Ha, Hsa.
  - intros a functionName func zip Hs Hf Hn.
    rewrite (getFunctionZipPath_eval a functionName func Hs Hf Hn).
    destruct (truthy (function_artifact func)) eqn:Ha.
    + intros E. injection E as E. now subst zip.
    + destruct (truthy (member (service_of a) "artifact")) eqn:Hsa.
      * intros E. injection E as E. now subst zip.
      * discriminate.
Qed.

Lemma getFunctionZipPath_fallback_witness :
  getFunctionZipPath
    (packaged (VObj [("handler", VStr "index.main")])
              [("artifact", VStr "service.zip")])
    "hello"
  = Ok (VStr "service.zip")
  /\ truthy (VStr "service.zip") = true.
Proof.
  destruct getFunctionZipPath_fallback as [H1 H2].
  assert (E : getFunctionZipPath
                (packaged (VObj [("handler", VStr "index.main")])
                          [("artifact", VStr "service.zip")])
                "hello"
              = Ok (VStr "service.zip")).
  { apply (H1 (packaged (VObj [("handler", VStr "index.main")])
                        [("artifact", VStr "service.zip")])
              "hello" (VObj [("handler", VStr "index.main")]));
      reflexivity. }
  split; [exact E|].
  apply (H2 (packaged (VObj [("handler", VStr "index.main")])
                      [("artifact", VStr "service.zip")])
            "hello" (VObj [("handler", VStr "index.main")])
            (VStr "service.zip") eq_refl eq_refl eq_refl E).
Defined.

(** X13. Failures of [getFunctionZipPath] other than the missing package:
    an error of the host's [getFunction] is passed on unchanged, whatever
    artifact the service has; a host without a service, and a function
    resolved to [undefined] or [null], give a TypeError. *)
Theorem getFunctionZipPath_failures :
  forall (a : Adapter) (functionName : string),
    (forall e, has_service a = true ->
               getFunction a functionName = Throw e ->
               getFunctionZipPath a functionName = Throw e)
    /\ (has_service a = false ->
        getFunctionZipPath a functionName = Throw TypeError)
    /\ (forall func, has_service a = true ->
                     getFunction a functionName = Ok func ->
                     nullish func = true ->
                     getFunctionZipPath a functionName = Throw TypeError).
Proof.
  intros a functionName. split; [|split].
  - intros e Hs Hf. unfold getFunctionZipPath.
    now rewrite (service_read a "getFunction" Hs), Hf.
  - unfold has_service, service_of. intros H.
    unfold getFunctionZipPath. simpl. unfold prop.
    destruct (nullish (serverless a)); [reflexivity|]. simpl.
    destruct (nullish (member (serverless a) "service"));
      [reflexivity | discriminate H].
  - intros func Hs Hf Hn. unfold getFunctionZipPath.
    rewrite (service_read a "getFunction" Hs), Hf. cbn [bindR].
    unfold prop at 1. now rewrite Hn.
Qed.

Lemma getFunctionZipPath_failures_witness :
  getFunctionZipPath (packaged VNull [("artifact", VStr "service.zip")])
                     "goodbye"
  = Throw (Rejected "no such function")
  /\ getFunctionZipPath
       {| options := VObj []; serverless := VObj [];
          getFunction := fun _ => Ok (VObj []);
          tsCompiled := false; sdkProvider := None |} "hello"
     = Throw TypeError
  /\ getFunctionZipPath (packaged VNull [("artifact", VStr "service.zip")])
                        "hello"
     = Throw TypeError.
Proof.
  split; [|split].
  - apply (getFunctionZipPath_failures
             (packaged VNull [("artifact", VStr "service.zip")]) "goodbye");
      reflexivity.
  - apply (getFunctionZipPath_failures
             {| options := VObj []; serverless := VObj [];
                getFunction := fun _ => Ok (VObj []);
                tsCompiled := false; sdkProvider := None |} "hello").
    reflexivity.
  - apply (proj2 (proj2 (getFunctionZipPath_failures
                           (packaged VNull [("artifact", VStr "service.zip")])
                           "hello")) VNull); reflexivity.
Defined.

(** *** Paths of the compiled assembly and of the TypeScript project *)

Lemma config_read (a : Adapter) (k : string) :
  nullish (serverless a) = false ->
  nullish (member (serverless a) "config") = false ->
  props (serverless a) ["config"; k]
  = Ok (member (member (serverless a) "config") k).
Proof. intros H1 H2. simpl. unfold prop. rewrite H1. simpl. now rewrite H2. Qed.

Lemma has_provider_host (a : Adapter) :
  has_provider a = true -> nullish (serverless a) = false.
Proof.
  unfold has_provider, has_service. intros H.
  apply andb_prop in H as [H _]. apply andb_prop in H as [H _].
  now apply negb_true_iff in H.
Qed.

(** X14. [getCdkTsconfigPath] returns an absolute [tsConfigPath] as it is
    and does not need the service path for it.  With no [tsConfigPath]
    configured it joins the service path with ["tsconfig.json"], next to
    the assembly directory that [getCdkOutputPath] joins to the same
    service path.  A relative path on a host without [config] is a
    TypeError. *)
Theorem getCdkTsconfigPath_cases
        (path_join : string -> string -> string)
        (path_isAbsolute : string -> bool) :
  forall a : Adapter,
    has_provider a = true ->
    (forall file : string,
        member (provider_of a) "tsConfigPath" = VStr file ->
        file <> "" ->
        path_isAbsolute file = true ->
        getCdkTsconfigPath path_join path_isAbsolute a = Ok (VStr file))
    /\ (forall dir : string,
           truthy (member (provider_of a) "tsConfigPath") = false ->
           path_isAbsolute "tsconfig.json" = false ->
           nullish (member (serverless a) "config") = false ->
           member (member (serverless a) "config") "servicePath" = VStr dir ->
           getCdkTsconfigPath path_join path_isAbsolute a
           = Ok (VStr (path_join dir "tsconfig.json"))
           /\ getCdkOutputPath path_join a
              = Ok (VStr (path_join dir ".serverless-aws-cdk-assembly")))
    /\ (forall file : string,
           member (provider_of a) "tsConfigPath" = VStr file ->
           file <> "" ->
           path_isAbsolute file = false ->
           nullish (member (serverless a) "config") = true ->
           getCdkTsconfigPath path_join path_isAbsolute a = Throw TypeError).
Proof.
  intros a Hp. pose proof (has_provider_host a Hp) as Hh.
  assert (T : forall file, file <> "" -> truthy (VStr file) = true).
  { intros file Hne. simpl. destruct (String.eqb_spec file "");
      [congruence | reflexivity]. }
  split; [|split].
  - intros file Hf Hne Habs. unfold getCdkTsconfigPath.
    rewrite (provider_read a "tsConfigPath" Hp), Hf. cbn [bindR].
    unfold or_else. rewrite (T file Hne). now rewrite Habs.
  - intros dir Hf Habs Hc Hd. split.
    + unfold getCdkTsconfigPath.
      rewrite (provider_read a "tsConfigPath" Hp). cbn [bindR].
      unfold or_else. rewrite Hf, Habs.
      rewrite (config_read a "servicePath" Hh Hc). cbn [bindR].
      now rewrite Hd.
    + unfold getCdkOutputPath.
      rewrite (config_read a "servicePath" Hh Hc). cbn [bindR].
      now rewrite Hd.
  - intros file Hf Hne Habs Hc. unfold getCdkTsconfigPath.
    rewrite (provider_read a "tsConfigPath" Hp), Hf. cbn [bindR].
    unfold or_else. rewrite (T file Hne), Habs.
    simpl. unfold prop. rewrite Hh. simpl. now rewrite Hc.
Qed.

Lemma getCdkTsconfigPath_cases_witness :
  getCdkTsconfigPath posix_join posix_isAbsolute
    (hosted None [("tsConfigPath", VStr "/opt/tsconfig.cdk.json")])
  = Ok (VStr "/opt/tsconfig.cdk.json")
  /\ (getCdkTsconfigPath posix_join posix_isAbsolute
        (hosted (Some [("servicePath", VStr "/srv/app")]) [])
      = Ok (VStr "/srv/app/tsconfig.json")
      /\ getCdkOutputPath posix_join
           (hosted (Some [("servicePath", VStr "/srv/app")]) [])
         = Ok (VStr "/srv/app/.serverless-aws-cdk-assembly"))
  /\ getCdkTsconfigPath posix_join posix_isAbsolute
       (hosted None [("tsConfigPath", VStr "cdk/tsconfig.json")])
     = Throw TypeError.
Proof.
  split; [|split].
  - apply (proj1 (getCdkTsconfigPath_cases posix_join posix_isAbsolute
                    (hosted None [("tsConfigPath",
                                   VStr "/opt/tsconfig.cdk.json")])
                    eq_refl) "/opt/tsconfig.cdk.json");
      [reflexivity | discriminate | reflexivity].
  - apply (proj1 (proj2 (getCdkTsconfigPath_cases posix_join posix_isAbsolute
                           (hosted (Some [("servicePath", VStr "/srv/app")])
                                   [])
                           eq_refl)) "/srv/app"); reflexivity.
  - apply (proj2 (proj2 (getCdkTsconfigPath_cases posix_join posix_isAbsolute
                           (hosted None [("tsConfigPath",
                                          VStr "cdk/tsconfig.json")])
                           eq_refl)) "cdk/tsconfig.json");
      [reflexivity | discriminate | reflexivity | reflexivity].
Defined.

(** *** Construction *)

(** X15. Every adapter constructed on a host appends one more copy of the
    glob of the assembly directory to the packaging exclusions: the list
    keeps its earlier entries in order and is not deduplicated, and an
    exclusion that was not an array is replaced by the glob alone. *)
Theorem constructor_exclude_accumulates :
  (forall (n : nat) (items : list JS.value),
      constructed n (AnArray items)
      = AnArray (items
                 ++ repeat (VStr ".serverless-aws-cdk-assembly/**") n)%list)
  /\ (forall (n : nat) (v : JS.value),
         constructed (S n) (NotAnArray v)
         = AnArray (repeat (VStr ".serverless-aws-cdk-assembly/**") (S n))).
Proof.
  split.
  - intros n items. induction n as [|n IH]; simpl.
    + now rewrite app_nil_r.
    + rewrite IH. simpl. rewrite <- app_assoc. f_equal. f_equal.
      symmetry. apply (repeat_cons n).
  - intros n v. induction n as [|n IH]; [reflexivity|].
    change (constructed (S (S n)) (NotAnArray v))
      with (AnArray (constructor_exclude (constructed (S n) (NotAnArray v)))).
    rewrite IH. cbn [constructor_exclude]. f_equal.
    symmetry. apply (repeat_cons (S n)).
Qed.

(** *** Runs of the asynchronous methods *)

Lemma constructions_after (cs ds : list Call) :
  constructions (cs ++ ds)%list = constructions cs + constructions ds.
Proof.
  induction cs as [|c cs IH]; simpl; [reflexivity|].
  destruct c; simpl; now rewrite IH.
Qed.

Lemma identity_calls_after (cs ds : list Call) :
  identity_calls (cs ++ ds)%list = identity_calls cs + identity_calls ds.
Proof.
  induction cs as [|c cs IH]; simpl; [reflexivity|].
  destruct c; simpl; now rewrite IH.
Qed.

Lemma session_calls_after (cs ds : list Call) :
  session_calls (cs ++ ds)%list = session_calls cs + session_calls ds.
Proof.
  induction cs as [|c cs IH]; simpl; [reflexivity|].
  destruct c; simpl; now rewrite IH.
Qed.

Lemma same_config_refl (a : Adapter) : same_config a a.
Proof. repeat split. Qed.

Lemma handle_kept_refl (s : State) : handle_kept s s.
Proof.
  split; [apply same_config_refl|]. split; [now intros p H|].
  split; [lia|]. intros H. lia.
Qed.

(** Recording a call that is not a handle request keeps the handle. *)
Lemma handle_kept_logged (s s1 : State) (c : Call) :
  handle_kept s s1 ->
  constructions [c] = 0 ->
  handle_kept s (logged s1 c).
Proof.
  intros [Hc [Hk [Hle Hone]]] Hn. unfold handle_kept, logged.
  cbn [this calls]. rewrite constructions_after, Hn, Nat.add_0_r.
  split; [exact Hc|]. split; [exact Hk|]. split; [exact Hle | exact Hone].
Qed.

Section MoreRunFacts.
Variable toolkit : Toolkit.

Lemma getSdkProvider_handle (s : State) :
  handle_kept s (snd (getSdkProvider toolkit s)).
Proof.
  destruct (sdkProvider (this s)) as [q|] eqn:E.
  - rewrite (getSdkProvider_cached toolkit s q E). apply handle_kept_refl.
  - rewrite (getSdkProvider_first toolkit s E).
    destruct (SdkProvider_withAwsCliCompatibleDefaults toolkit (calls s)
                (getProfile (this s)));
      unfold handle_kept, logged; cbn [snd this calls];
      rewrite constructions_after; cbn [constructions];
      (split; [repeat split|]);
      (split; [intros p H; congruence|]); (split; [lia | now intros _]).
Qed.

Lemma getAccountInfo_state (s : State) :
  snd (getAccountInfo toolkit s)
  = logged s (GetCallerIdentity (getRegion (this s))).
Proof.
  unfold getAccountInfo, bind, pure, invoke, ret, logged.
  destruct (sts_getCallerIdentity toolkit (calls s) (getRegion (this s)));
    reflexivity.
Qed.

Lemma getAccountInfo_rejected (s : State) (e : exn) :
  sts_getCallerIdentity toolkit (calls s) (getRegion (this s)) = Throw e ->
  getAccountInfo toolkit s
  = (Throw e, logged s (GetCallerIdentity (getRegion (this s)))).
Proof.
  intros H. unfold getAccountInfo, bind, pure, invoke, logged. now rewrite H.
Qed.

Lemma getAccountId_rejected (s : State) (e : exn) :
  sts_getCallerIdentity toolkit (calls s) (getRegion (this s)) = Throw e ->
  getAccountId toolkit s
  = (Throw e, logged s (GetCallerIdentity (getRegion (this s)))).
Proof.
  intros H. unfold getAccountId, bind at 1.
  now rewrite (getAccountInfo_rejected s e H).
Qed.

Lemma getEnvironment_rejected (s : State) (e : exn) :
  sts_getCallerIdentity toolkit (calls s) (getRegion (this s)) = Throw e ->
  getEnvironment toolkit s
  = (Throw e, logged s (GetCallerIdentity (getRegion (this s)))).
Proof.
  intros H. unfold getEnvironment, bind at 1.
  now rewrite (getAccountId_rejected s e H).
Qed.

(** What a run of [getSdk] can leave behind: nothing when the role ARN
    cannot be read; what [getSdkProvider] left when it failed; one
    identity call more when that call was rejected; an identity call and
    a session request otherwise. *)
Lemma getSdk_trace (s s' : State) (r : result ISDK) :
  getSdk toolkit s = (r, s') ->
  let s1 := snd (getSdkProvider toolkit s) in
  let identity := GetCallerIdentity (getRegion (this s1)) in
  (s' = s /\ exists e, r = Throw e)
  \/ (s' = s1 /\ exists e, r = Throw e)
  \/ (s' = logged s1 identity /\ exists e, r = Throw e)
  \/ (exists c, is_session c = true /\ s' = logged (logged s1 identity) c).
Proof.
  intros H s1 identity. subst identity s1.
  unfold getSdk, bind at 1, sync in H.
  destruct (getCfnRoleArn (this s)) as [role|e].
  2:{ injection H as Hr Hs. left. split; [now symmetry | now exists e]. }
  right. unfold bind at 1 in H.
  destruct (getSdkProvider toolkit s) as [[p|e] s1]; cbn [snd].
  2:{ injection H as Hr Hs. left. split; [now symmetry | now exists e]. }
  right.
  destruct (sts_getCallerIdentity toolkit (calls s1) (getRegion (this s1)))
    as [id|e] eqn:Hid.
  - right. destruct (truthy role); unfold bind at 1 in H.
    + rewrite (getAccountId_run toolkit s1 id Hid) in H.
      unfold bind, pure, invoke in H. cbn [this calls] in H.
      injection H as Hr Hs. eexists. split; [|symmetry; exact Hs].
      reflexivity.
    + rewrite (getEnvironment_run toolkit s1 id Hid) in H.
      unfold invoke in H. cbn [this calls] in H.
      injection H as Hr Hs. eexists. split; [|symmetry; exact Hs].
      reflexivity.
  - left. destruct (truthy role); unfold bind at 1 in H.
    + rewrite (getAccountId_rejected s1 e Hid) in H.
      injection H as Hr Hs. split; [now symmetry | now exists e].
    + rewrite (getEnvironment_rejected s1 e Hid) in H.
      injection H as Hr Hs. split; [now symmetry | now exists e].
Qed.

End MoreRunFacts.

Lemma session_no_construction (c : Call) :
  is_session c = true -> constructions [c] = 0.
Proof. destruct c; simpl; congruence. Qed.

Lemma getSdkProvider_counts (toolkit : Toolkit) (s : State) :
  identity_calls (calls (snd (getSdkProvider toolkit s)))
  = identity_calls (calls s)
  /\ session_calls (calls (snd (getSdkProvider toolkit s)))
     = session_calls (calls s).
Proof.
  destruct (sdkProvider (this s)) as [q|] eqn:E.
  - rewrite (getSdkProvider_cached toolkit s q E). now split.
  - rewrite (getSdkProvider_first toolkit s E).
    destruct (SdkProvider_withAwsCliCompatibleDefaults toolkit (calls s)
                (getProfile (this s))); unfold logged; cbn [snd calls];
      rewrite identity_calls_after, session_calls_after; simpl; lia.
Qed.

(** X17. [getSdk] never loses the toolkit handle and never changes the
    configuration: whatever its outcome, a handle assigned before is still
    assigned after and no new one is requested; without one, at most one
    is requested. *)
Theorem getSdk_keeps_handle (toolkit : Toolkit) :
  forall s : State, handle_kept s (snd (getSdk toolkit s)).
Proof.
  intros s. destruct (getSdk toolkit s) as [r s'] eqn:E. cbn [snd].
  pose proof (getSdkProvider_handle toolkit s) as Hp.
  destruct (getSdk_trace toolkit s s' r E)
    as [[Hs _]|[[Hs _]|[[Hs _]|[c [Hc Hs]]]]]; subst s'.
  - apply handle_kept_refl.
  - exact Hp.
  - now apply handle_kept_logged.
  - apply handle_kept_logged; [now apply handle_kept_logged|].
    now apply session_no_construction.
Qed.

(** X18. One run of [getSdk] makes at most one identity call and at most
    one session request, and exactly one of each when it succeeds: the
    account id is looked up again on every run, never remembered. *)
Theorem getSdk_call_budget (toolkit : Toolkit) :
  forall s : State,
    let s' := snd (getSdk toolkit s) in
    identity_calls (calls s') <= S (identity_calls (calls s))
    /\ session_calls (calls s') <= S (session_calls (calls s))
    /\ (forall sdk : ISDK,
           fst (getSdk toolkit s) = Ok sdk ->
           identity_calls (calls s') = S (identity_calls (calls s))
           /\ session_calls (calls s') = S (session_calls (calls s))).
Proof.
  intros s. destruct (getSdk toolkit s) as [r s'] eqn:E. cbn [snd fst].
  destruct (getSdkProvider_counts toolkit s) as [Hi Hs].
  assert (S1 : forall c, is_session c = true ->
                         identity_calls [c] = 0 /\ session_calls [c] = 1)
    by (intros c Hc; destruct c; simpl in *; (discriminate || now split)).
  destruct (getSdk_trace toolkit s s' r E)
    as [[H [e He]]|[[H [e He]]|[[H [e He]]|[c [Hc H]]]]]; subst s'.
  - split; [lia|]. split; [lia|]. intros sdk Hr. congruence.
  - rewrite Hi, Hs. split; [lia|]. split; [lia|]. intros sdk Hr. congruence.
  - unfold logged. cbn [calls].
    rewrite identity_calls_after, session_calls_after, Hi, Hs. simpl.
    split; [lia|]. split; [lia|]. intros sdk Hr. congruence.
  - unfold logged. cbn [calls].
    rewrite !identity_calls_after, !session_calls_after, Hi, Hs.
    destruct (S1 c Hc) as [Hci Hcs]. rewrite Hci, Hcs. simpl.
    split; [lia|]. split; [lia|]. intros sdk _. lia.
Qed.

Lemma getSdk_call_budget_witness :
  identity_calls
    (calls (snd (getSdk answering
                   (snd (getSdk answering (fresh (sample [] [])))))))
  = 2
  /\ constructions
       (calls (snd (getSdk answering
                      (snd (getSdk answering (fresh (sample [] [])))))))
     = 1.
Proof.
  pose proof (getSdk_call_budget answering (fresh (sample [] [])))
    as [_ [_ H1]].
  pose proof (getSdk_call_budget answering
                (snd (getSdk answering (fresh (sample [] [])))))
    as [_ [_ H2]].
  destruct (H1 (SdkRef 2) eq_refl) as [E1 _].
  destruct (H2 (SdkRef 4) eq_refl) as [E2 _].
  split; [|reflexivity]. rewrite E2, E1. reflexivity.
Defined.

(** X19. Without a provider section [getSdk] fails with a TypeError before
    anything is asked of the toolkit or the credentials API: the adapter
    and the list of calls are left as they were. *)
Theorem getSdk_needs_provider_section (toolkit : Toolkit) :
  forall s : State,
    has_provider (this s) = false ->
    getSdk toolkit s = (Throw TypeError, s).
Proof.
  intros s H. unfold getSdk, bind at 1, sync, getCfnRoleArn.
  now rewrite (provider_read_missing (this s) "cfnRole" H).
Qed.

Lemma getSdk_needs_provider_section_witness :
  getSdk answering (fresh bare) = (Throw TypeError, fresh bare).
Proof.
  apply (getSdk_needs_provider_section answering (fresh bare)). reflexivity.
Defined.

(** X20. A failed construction of the toolkit handle is not remembered:
    [getSdkProvider] passes the error on and leaves the handle unassigned,
    [getSdk] stops there without an identity call, and the next
    [getSdkProvider] asks the toolkit again. *)
Theorem getSdkProvider_failure_not_cached (toolkit : Toolkit) :
  forall (s : State) (e : exn),
    sdkProvider (this s) = None ->
    SdkProvider_withAwsCliCompatibleDefaults toolkit (calls s)
      (getProfile (this s)) = Throw e ->
    let request := WithAwsCliCompatibleDefaults (getProfile (this s)) in
    getSdkProvider toolkit s = (Throw e, logged s request)
    /\ (has_provider (this s) = true ->
        getSdk toolkit s = (Throw e, logged s request))
    /\ calls (snd (getSdkProvider toolkit (logged s request)))
       = (calls s ++ [request; request])%list.
Proof.
  intros s e Hn He request.
  assert (G : getSdkProvider toolkit s = (Throw e, logged s request)).
  { rewrite (getSdkProvider_first toolkit s Hn). subst request.
    now rewrite He. }
  split; [exact G|]. split.
  - intros Hp. unfold getSdk, bind at 1, sync.
    rewrite (getCfnRoleArn_eval (this s) Hp). unfold bind at 1.
    now rewrite G.
  - rewrite (getSdkProvider_first toolkit (logged s request) Hn).
    cbn [this logged]. fold request.
    destruct (SdkProvider_withAwsCliCompatibleDefaults toolkit
                (calls (logged s request)) (getProfile (this s)));
      unfold logged; cbn [snd calls]; now rewrite <- app_assoc.
Qed.

Lemma getSdkProvider_failure_not_cached_witness :
  getSdkProvider flaky (fresh (sample [] []))
  = (Throw (Rejected "no credentials"),
     logged (fresh (sample [] [])) (WithAwsCliCompatibleDefaults VUndefined))
  /\ fst (getSdkProvider flaky
            (logged (fresh (sample [] []))
                    (WithAwsCliCompatibleDefaults VUndefined)))
     = Ok (SdkProviderRef 1).
Proof.
  split; [|reflexivity].
  apply (getSdkProvider_failure_not_cached flaky (fresh (sample [] []))
           (Rejected "no credentials") eq_refl eq_refl).
Defined.

(** X21. When the identity call is rejected, [getSdk] fails with that
    error and requests no session: neither the role assumption nor the
    environment session is called without an account id. *)
Theorem getSdk_identity_rejected (toolkit : Toolkit) :
  forall (s s1 : State) (p : SdkProvider) (e : exn),
    has_provider (this s) = true ->
    getSdkProvider toolkit s = (Ok p, s1) ->
    sts_getCallerIdentity toolkit (calls s1) (getRegion (this s)) = Throw e ->
    getSdk toolkit s
    = (Throw e, logged s1 (GetCallerIdentity (getRegion (this s))))
    /\ session_calls (calls (snd (getSdk toolkit s)))
       = session_calls (calls s).
Proof.
  intros s s1 p e Hp Hprov Hid.
  destruct (getSdkProvider_post toolkit s s1 p Hprov) as [_ [Ho [Hs Ht]]].
  assert (Hregion : getRegion (this s1) = getRegion (this s)).
  { unfold getRegion, getRegionSourceValue.
    now rewrite (self_stable (this s) (this s1) Ho Hs Ht). }
  rewrite <- Hregion in *.
  assert (G : getSdk toolkit s
              = (Throw e, logged s1 (GetCallerIdentity (getRegion (this s1))))).
  { unfold getSdk, bind at 1, sync.
    rewrite (getCfnRoleArn_eval (this s) Hp). unfold bind at 1.
    rewrite Hprov.
    destruct (truthy (or_else (member (provider_of (this s)) "cfnRole")
                              VUndefined)); unfold bind at 1.
    - now rewrite (getAccountId_rejected toolkit s1 e Hid).
    - now rewrite (getEnvironment_rejected toolkit s1 e Hid). }
  split; [exact G|]. rewrite G. unfold logged. cbn [snd calls].
  rewrite session_calls_after. simpl.
  pose proof (getSdkProvider_counts toolkit s) as [_ Hc].
  rewrite Hprov in Hc. cbn [snd] in Hc. lia.
Qed.

Lemma getSdk_identity_rejected_witness :
  getSdk expired (fresh (sample [] []))
  = (Throw (Rejected "ExpiredToken"),
     logged (snd (getSdkProvider expired (fresh (sample [] []))))
            (GetCallerIdentity (VStr "us-east-1"))).
Proof.
  apply (getSdk_identity_rejected expired (fresh (sample [] []))
           (snd (getSdkProvider expired (fresh (sample [] []))))
           (SdkProviderRef 0) (Rejected "ExpiredToken")
           eq_refl eq_refl eq_refl).
Defined.

(** *** Identity lookups *)

Lemma colon_second (arn : string) :
  every (outside is_colon) arn = false ->
  exists p, nth_error (JS.split ":" arn) 1 = Some p.
Proof.
  induction arn as [|c arn IH]; simpl; [discriminate|].
  unfold outside at 1, is_colon at 1.
  pose proof (split_not_empty ":" arn) as Hne.
  destruct (c =? ":")%char; simpl.
  - intros _. destruct (JS.split ":" arn) as [|seg segs]; [congruence|].
    now exists seg.
  - intros H. destruct (IH H) as [p Hp].
    destruct (JS.split ":" arn) as [|seg segs]; [congruence|].
    now exists p.
Qed.

(** X22. Every call of [getAccountInfo], [getAccountId] or
    [getEnvironment] asks the credentials API once, in the resolved
    region, whatever was asked before and whatever the answer; a
    rejection is passed on unchanged by all three. *)
Theorem identity_lookups_always_ask (toolkit : Toolkit) :
  forall s : State,
    let asked := logged s (GetCallerIdentity (getRegion (this s))) in
    snd (getAccountInfo toolkit s) = asked
    /\ snd (getAccountId toolkit s) = asked
    /\ snd (getEnvironment toolkit s) = asked
    /\ (forall e : exn,
           sts_getCallerIdentity toolkit (calls s) (getRegion (this s))
           = Throw e ->
           fst (getAccountInfo toolkit s) = Throw e
           /\ fst (getAccountId toolkit s) = Throw e
           /\ fst (getEnvironment toolkit s) = Throw e).
Proof.
  intros s asked. subst asked.
  destruct (sts_getCallerIdentity toolkit (calls s) (getRegion (this s)))
    as [id|e] eqn:H.
  - rewrite (getAccountInfo_run toolkit s id H),
      (getAccountId_run toolkit s id H), (getEnvironment_run toolkit s id H).
    repeat split; discriminate.
  - rewrite (getAccountInfo_rejected toolkit s e H),
      (getAccountId_rejected toolkit s e H),
      (getEnvironment_rejected toolkit s e H).
    repeat split; cbn [fst]; congruence.
Qed.

Lemma identity_lookups_always_ask_witness :
  fst (getAccountInfo expired (fresh (sample [] [])))
  = Throw (Rejected "ExpiredToken")
  /\ fst (getAccountId expired (fresh (sample [] [])))
     = Throw (Rejected "ExpiredToken")
  /\ fst (getEnvironment expired (fresh (sample [] [])))
     = Throw (Rejected "ExpiredToken").
Proof.
  apply (identity_lookups_always_ask expired (fresh (sample [] []))).
  reflexivity.
Defined.

(** X23. The [partition] reported by [getAccountInfo] is [undefined]
    exactly when the identity answer carries no ARN or an ARN without
    [":"]; in every other case it is a string. *)
Theorem getAccountInfo_partition_undefined (toolkit : Toolkit) :
  forall (s : State) (id : CallerIdentity),
    sts_getCallerIdentity toolkit (calls s) (getRegion (this s)) = Ok id ->
    (partition_of (getAccountInfo toolkit s) = Some VUndefined
     <-> Arn id = None
         \/ exists arn, Arn id = Some arn
                        /\ every (outside is_colon) arn = true)
    /\ (partition_of (getAccountInfo toolkit s) = Some VUndefined
        \/ exists p, partition_of (getAccountInfo toolkit s) = Some (VStr p)).
Proof.
  intros s id H. unfold partition_of.
  rewrite (getAccountInfo_run toolkit s id H). cbn [fst partition].
  destruct (Arn id) as [arn|].
  - change (Lodash.nth (Lodash.split (of_option (Some arn)) ":") 1)
      with (of_option (nth_error (JS.split ":" arn) 1)).
    destruct (every (outside is_colon) arn) eqn:E.
    + rewrite (split_last arn E). simpl. split; [|now left].
      split; [right; now exists arn | reflexivity].
    + destruct (colon_second arn E) as [p Hp]. rewrite Hp. simpl.
      split; [|right; now exists p].
      split; [discriminate|].
      intros [D|[arn' [D E']]]; [discriminate|].
      injection D as <-. congruence.
  - simpl. split; [|now left]. split; [now left | reflexivity].
Qed.

Lemma getAccountInfo_partition_undefined_witness :
  partition_of
    (getAccountInfo
       {| sts_getCallerIdentity := fun _ _ =>
            Ok {| Arn := Some "anonymous"; Account := None; UserId := None |};
          SdkProvider_withAwsCliCompatibleDefaults :=
            SdkProvider_withAwsCliCompatibleDefaults answering;
          SdkProvider_withAssumedRole := SdkProvider_withAssumedRole answering;
          SdkProvider_forEnvironment := SdkProvider_forEnvironment answering |}
       (fresh (sample [] [])))
  = Some VUndefined.
Proof.
  apply (proj1 (getAccountInfo_partition_undefined
                  {| sts_getCallerIdentity := fun _ _ =>
                       Ok {| Arn := Some "anonymous"; Account := None;
                             UserId := None |};
                     SdkProvider_withAwsCliCompatibleDefaults :=
                       SdkProvider_withAwsCliCompatibleDefaults answering;
                     SdkProvider_withAssumedRole :=
                       SdkProvider_withAssumedRole answering;
                     SdkProvider_forEnvironment :=
                       SdkProvider_forEnvironment answering |}
                  (fresh (sample [] []))
                  {| Arn := Some "anonymous"; Account := None;
                     UserId := None |}
                  eq_refl)).
  right. exists "anonymous". split; reflexivity.
Defined.

(** X24. When the identity call is answered, [getEnvironment] yields the
    descriptor made of the resolved stage, the account of the answer and
    the resolved region.  Its name and region are never empty, and its
    region is the one the identity call was made in. *)
Theorem getEnvironment_descriptor (toolkit : Toolkit) :
  forall (s : State) (id : CallerIdentity),
    sts_getCallerIdentity toolkit (calls s) (getRegion (this s)) = Ok id ->
    exists environment : Environment,
      fst (getEnvironment toolkit s) = Ok environment
      /\ name environment = getStage (this s)
      /\ account environment = of_option (Account id)
      /\ region environment = getRegion (this s)
      /\ truthy (name environment) = true
      /\ truthy (region environment) = true
      /\ calls (snd (getEnvironment toolkit s))
         = (calls s ++ [GetCallerIdentity (region environment)])%list.
Proof.
  intros s id H. rewrite (getEnvironment_run toolkit s id H).
  eexists. split; [reflexivity|]. cbn [name account region snd logged calls].
  repeat split.
  - unfold getStage. now apply or_else_truthy.
  - unfold getRegion. now apply or_else_truthy.
Qed.

Lemma getEnvironment_descriptor_witness :
  exists environment : Environment,
    fst (getEnvironment answering (fresh (sample [("stage", VStr "qa")] [])))
    = Ok environment
    /\ name environment = VStr "qa"
    /\ account environment = VStr "123456789012"
    /\ region environment = VStr "us-east-1".
Proof.
  destruct (getEnvironment_descriptor answering
              (fresh (sample [("stage", VStr "qa")] []))
              {| Arn := Some "arn:aws:iam::123456789012:user/dev";
                 Account := Some "123456789012";
                 UserId := Some "AIDACKCEVSQ6C2EXAMPLE" |}
              eq_refl)
    as [environment [H1 [H2 [H3 [H4 _]]]]].
  exists environment. repeat split; assumption.
Defined.

(** *** The service name *)


